(** * The tile-path game of [src/index.js]

    A shallow embedding of the game loop of the page script: the board and
    secret path built at load time, the window click listener, the timers,
    tweens and promise continuations it leaves behind, the proof pipeline
    inside the [try]/[catch], and the listener of the verify button.

    Conventions of the embedding.
    - JavaScript numbers are exact rationals ([Q]).  Every coordinate the
      script computes is a multiple of 2.5 and is only compared against the
      thresholds 0.1 and 0, so rounding plays no part.  The light lines
      divide; what is proved of them is confined to arguments on which no
      operation on doubles rounds.
    - [BigInt] values are [Z]; [Uint8Array]s are lists of [Z] in 0..255.
    - A text is a [string] read character by character: each [ascii] is one
      UTF-16 code unit, of value below 256.  On these texts [trim],
      [parseInt], [toLowerCase], [length] and [substr] are those of
      JavaScript: the white space includes the no-break space U+00A0 and
      the capital letters those of U+00C0..U+00DE.  A text that holds a
      code unit of 256 or more is not represented and nothing is stated of
      it.  The notices and the markup that the script shows are constants,
      stored and compared as wholes, and are written as in the source.
    - The script's globals form one [State] record.  Handlers are functions
      [State -> State]; work that the script defers ([setTimeout] callbacks,
      gsap tweens with their [onComplete], the continuation after each
      [await]) is a list of pending [Task]s that the environment resumes in
      any order.
    - The rendering engine, the hash, the circuit compiler, the prover and
      the digest are external: they are the fields of [Externals].
    - Rendering only state (camera, lights, fireworks, the render loop) is
      left out. *)

From Stdlib Require Import List ZArith QArith Qabs Qround Lqa Lia Bool.
From Stdlib Require Import String Ascii DecimalString.
Import ListNotations.

(** ** Values *)

(** The outcome of a call that may throw. *)
Inductive result (A : Type) : Type :=
| Ok (a : A)
| Throw (e : string).
Arguments Ok {A} a.
Arguments Throw {A} e.

Definition Bytes := list Z.

(** [program] as returned by [compile]; only its bytecode is used. *)
Definition Program := string.
Definition Witness := Bytes.

(** [noirInputs] *)
Record NoirInputs := {
  secret_path : list string;
  user_path : list string;
  public_hash : string
}.

(** Calls made to the external libraries, in a log kept for the proofs. *)
Inductive Call :=
| CallGetCircuit
| CallExecute (program : Program) (inputs : NoirInputs)
| CallGenerateProof (program : Program) (witness : Witness)
| CallDigest (proof : Bytes).

Record Externals := {
  poseidon2Hash : list Z -> Z;
  getCircuit : result Program;
  noir_execute : Program -> NoirInputs -> result Witness;
  generateProof : Program -> Witness -> result Bytes;
  digest : Bytes -> result Bytes
}.

(** ** Utility functions *)

Definition hexDigit (d : Z) : ascii :=
  if (d <? 10)%Z then ascii_of_nat (48 + Z.to_nat d)
  else ascii_of_nat (87 + Z.to_nat d).

(** [b.toString(16).padStart(2, "0")] for an element of a [Uint8Array]. *)
Definition byteToHex (b : Z) : string :=
  String (hexDigit (b / 16)) (String (hexDigit (b mod 16)) EmptyString).

(** [toHex(array)] *)
Definition toHex (array : Bytes) : string :=
  ("0x" ++ String.concat "" (map byteToHex array))%string.

(** [v.toString()] of a [BigInt]: its decimal representation. *)
Definition toString (v : Z) : string := NilZero.string_of_int (Z.to_int v).

(** ** Tile grid *)

Definition numRows : nat := 3.
Definition numCols : nat := 2.
Definition tileSize : Q := 1.
Definition tileGapZ : Q := 3 # 2.
Definition tileOffset : Q := 4 # 5.
Definition tileOffsets : list Q := [ - tileOffset; tileOffset ].

(** A tile mesh: its position ([x] is [None] when it was set to
    [undefined]), its [userData] and the colour of its material. *)
Record Tile := {
  position_x : option Q;
  position_z : Q;
  colIndex : nat;
  break : bool;
  color : Z
}.

(** A symbol added to the scene by [revealTile]: [createO] or [createX]. *)
Record Symbol := {
  isO : bool;
  symbolColor : Z;
  symbol_x : option Q;
  symbol_z : Q
}.

(** [z] of row [i]: [-i * (tileSize + tileGapZ)]. *)
Definition rowZ (i : nat) : Q :=
  (- inject_Z (Z.of_nat i) * (tileSize + tileGapZ))%Q.

(** [Math.floor(Math.random() * numCols)], [r] being the number drawn. *)
Definition safeIndexOf (nCols : nat) (r : Q) : Z :=
  Qfloor (r * inject_Z (Z.of_nat nCols)).

(** The tile of row [i] and column [j], after the [forEach] that sets
    [userData.break]. *)
Definition mkTile (i j : nat) (safeIndex : Z) : Tile :=
  {| position_x := nth_error tileOffsets j;
     position_z := rowZ i;
     colIndex := j;
     break := negb (Z.of_nat j =? safeIndex)%Z;
     color := 0x333333 |}.

Definition rowTiles (nCols i : nat) (safeIndex : Z) : list Tile :=
  map (fun j => mkTile i j safeIndex) (seq 0 nCols).

(** The rows of the board; [rnd i] is the number [Math.random()] returns in
    iteration [i] of the outer loop. *)
Definition boardRows (nRows nCols : nat) (rnd : nat -> Q) : list (list Tile) :=
  map (fun i => rowTiles nCols i (safeIndexOf nCols (rnd i))) (seq 0 nRows).

(** [tiles] after the loop: each row pushed in turn. *)
Definition buildTiles (nRows nCols : nat) (rnd : nat -> Q) : list Tile :=
  List.concat (boardRows nRows nCols rnd).

(** [secretPath] after the loop. *)
Definition buildSecretPath (nRows nCols : nat) (rnd : nat -> Q) : list Z :=
  map (fun i => safeIndexOf nCols (rnd i)) (seq 0 nRows).

(** ** Session state *)

(** Deferred work. *)
Inductive Task :=
| GameOverTimer
| VictoryTimer
| CameraTween (z : Q)
| VictoryTween
| AwaitCircuit
| AwaitExecute (program : Program) (inputs : NoirInputs)
| AwaitProof (program : Program) (witness : Witness)
| AwaitDigest (proof : Bytes).

(** What the player can see of the page, and the console. *)
Record Dom := {
  alerts : list string;
  console : list string;
  victoryText : bool;
  proofHashValue : option string;
  copyButtons : bool;
  verifyListeners : list string;
  verifyResult : option string;
  reloaded : bool
}.

Record State := {
  tiles : list Tile;
  symbols : list Symbol;
  secretPath : list Z;
  publicHash : Z;
  currentExpectedZ : Q;
  canClick : bool;
  userPath : list Z;
  pending : list Task;
  calls : list Call;
  dom : Dom
}.

Definition set_tiles (v : list Tile) (s : State) : State :=
  {| tiles := v; symbols := symbols s; secretPath := secretPath s;
     publicHash := publicHash s; currentExpectedZ := currentExpectedZ s;
     canClick := canClick s; userPath := userPath s; pending := pending s;
     calls := calls s; dom := dom s |}.

Definition set_symbols (v : list Symbol) (s : State) : State :=
  {| tiles := tiles s; symbols := v; secretPath := secretPath s;
     publicHash := publicHash s; currentExpectedZ := currentExpectedZ s;
     canClick := canClick s; userPath := userPath s; pending := pending s;
     calls := calls s; dom := dom s |}.

Definition set_currentExpectedZ (v : Q) (s : State) : State :=
  {| tiles := tiles s; symbols := symbols s; secretPath := secretPath s;
     publicHash := publicHash s; currentExpectedZ := v;
     canClick := canClick s; userPath := userPath s; pending := pending s;
     calls := calls s; dom := dom s |}.

Definition set_canClick (v : bool) (s : State) : State :=
  {| tiles := tiles s; symbols := symbols s; secretPath := secretPath s;
     publicHash := publicHash s; currentExpectedZ := currentExpectedZ s;
     canClick := v; userPath := userPath s; pending := pending s;
     calls := calls s; dom := dom s |}.

Definition set_userPath (v : list Z) (s : State) : State :=
  {| tiles := tiles s; symbols := symbols s; secretPath := secretPath s;
     publicHash := publicHash s; currentExpectedZ := currentExpectedZ s;
     canClick := canClick s; userPath := v; pending := pending s;
     calls := calls s; dom := dom s |}.

Definition set_pending (v : list Task) (s : State) : State :=
  {| tiles := tiles s; symbols := symbols s; secretPath := secretPath s;
     publicHash := publicHash s; currentExpectedZ := currentExpectedZ s;
     canClick := canClick s; userPath := userPath s; pending := v;
     calls := calls s; dom := dom s |}.

Definition set_calls (v : list Call) (s : State) : State :=
  {| tiles := tiles s; symbols := symbols s; secretPath := secretPath s;
     publicHash := publicHash s; currentExpectedZ := currentExpectedZ s;
     canClick := canClick s; userPath := userPath s; pending := pending s;
     calls := v; dom := dom s |}.

Definition set_dom (v : Dom) (s : State) : State :=
  {| tiles := tiles s; symbols := symbols s; secretPath := secretPath s;
     publicHash := publicHash s; currentExpectedZ := currentExpectedZ s;
     canClick := canClick s; userPath := userPath s; pending := pending s;
     calls := calls s; dom := v |}.

(** [setTimeout(callback, ...)], [gsap.to(...)] and [await]: the deferred
    work joins the pending tasks. *)
Definition defer (t : Task) (s : State) : State :=
  set_pending (pending s ++ [t]) s.

Definition logCall (c : Call) (s : State) : State :=
  set_calls (calls s ++ [c]) s.

(** [alert(msg)] *)
Definition alert (msg : string) (s : State) : State :=
  let d := dom s in
  set_dom {| alerts := alerts d ++ [msg]; console := console d;
             victoryText := victoryText d; proofHashValue := proofHashValue d;
             copyButtons := copyButtons d; verifyListeners := verifyListeners d;
             verifyResult := verifyResult d; reloaded := reloaded d |} s.

(** [console.error(e)] *)
Definition console_error (e : string) (s : State) : State :=
  let d := dom s in
  set_dom {| alerts := alerts d; console := console d ++ [e];
             victoryText := victoryText d; proofHashValue := proofHashValue d;
             copyButtons := copyButtons d; verifyListeners := verifyListeners d;
             verifyResult := verifyResult d; reloaded := reloaded d |} s.

(** [location.reload()]: the page, and with it the session, is gone. *)
Definition reload (s : State) : State :=
  let d := dom s in
  set_dom {| alerts := alerts d; console := console d;
             victoryText := victoryText d; proofHashValue := proofHashValue d;
             copyButtons := copyButtons d; verifyListeners := verifyListeners d;
             verifyResult := verifyResult d; reloaded := true |} s.

(** [document.getElementById("victory-text").style.opacity = 1] *)
Definition showVictoryText (s : State) : State :=
  let d := dom s in
  set_dom {| alerts := alerts d; console := console d;
             victoryText := true; proofHashValue := proofHashValue d;
             copyButtons := copyButtons d; verifyListeners := verifyListeners d;
             verifyResult := verifyResult d; reloaded := reloaded d |} s.

(** The statements of the [try] block that follow the digest: the proof
    hash is displayed, the copy buttons are shown and wired, and the verify
    listener, which captures [proofHash], is registered. *)
Definition showProof (proofHash : string) (s : State) : State :=
  let d := dom s in
  set_dom {| alerts := alerts d; console := console d;
             victoryText := victoryText d; proofHashValue := Some proofHash;
             copyButtons := true;
             verifyListeners := verifyListeners d ++ [proofHash];
             verifyResult := verifyResult d; reloaded := reloaded d |} s.

(** [document.getElementById("verify-result").innerHTML = html] *)
Definition setVerifyResult (html : string) (s : State) : State :=
  let d := dom s in
  set_dom {| alerts := alerts d; console := console d;
             victoryText := victoryText d; proofHashValue := proofHashValue d;
             copyButtons := copyButtons d; verifyListeners := verifyListeners d;
             verifyResult := Some html; reloaded := reloaded d |} s.

(** ** Start of a session *)

Definition emptyDom : Dom :=
  {| alerts := []; console := []; victoryText := false;
     proofHashValue := None; copyButtons := false; verifyListeners := [];
     verifyResult := None; reloaded := false |}.

(** The globals once the module body has run, for a board of [nRows] rows
    and [nCols] columns. *)
Definition init (ext : Externals) (nRows nCols : nat) (rnd : nat -> Q) : State :=
  {| tiles := buildTiles nRows nCols rnd;
     symbols := [];
     secretPath := buildSecretPath nRows nCols rnd;
     publicHash := poseidon2Hash ext (buildSecretPath nRows nCols rnd);
     currentExpectedZ := 0;
     canClick := true;
     userPath := [];
     pending := [];
     calls := [];
     dom := emptyDom |}.

(** ** Reveal tile *)

Fixpoint updateAt {A : Type} (f : A -> A) (idx : nat) (l : list A) : list A :=
  match l, idx with
  | [], _ => []
  | a :: l', O => f a :: l'
  | a :: l', S k => a :: updateAt f k l'
  end.

Definition setColor (c : Z) (t : Tile) : Tile :=
  {| position_x := position_x t; position_z := position_z t;
     colIndex := colIndex t; break := break t; color := c |}.

(** [revealTile(tile, isSafe)], [tile] being [tiles[idx]]. *)
Definition revealTile (idx : nat) (tile : Tile) (isSafe : bool) (s : State) : State :=
  let s := set_tiles
             (updateAt (setColor (if isSafe then 0x00aa00 else 0xff0000)) idx (tiles s)) s in
  let symbolColor := if isSafe then 0x008800%Z else 0x880000%Z in
  set_symbols (symbols s ++ [ {| isO := isSafe; symbolColor := symbolColor;
                                 symbol_x := position_x tile;
                                 symbol_z := position_z tile |} ]) s.

(** ** User interaction and proof *)

Definition Qgtb (a b : Q) : bool := negb (Qle_bool a b).
Definition Qltb (a b : Q) : bool := negb (Qle_bool b a).

(** [tile.position.x < 0 ? 0 : 1]; [undefined < 0] is false. *)
Definition directionOf (tile : Tile) : Z :=
  match position_x tile with
  | Some x => if Qltb x 0 then 0%Z else 1%Z
  | None => 1%Z
  end.

(** [lastZ] *)
Definition lastZ (nRows : nat) : Q :=
  (- (inject_Z (Z.of_nat nRows) - 1) * (tileSize + tileGapZ))%Q.

(** The window click listener.  [hit] is the index in [tiles] of
    [intersects[0].object], or [None] when the ray meets no tile. *)
Definition clickHandler (nRows : nat) (hit : option nat) (s : State) : State :=
  if negb (canClick s) then s else
  match hit with
  | None => s
  | Some idx =>
    match nth_error (tiles s) idx with
    | None => s
    | Some tile =>
      let z := position_z tile in
      if Qgtb (Qabs (z - currentExpectedZ s)) (1 # 10) then s else
      let direction := directionOf tile in
      let s := set_userPath (userPath s ++ [direction]) s in
      let s := set_canClick false s in
      let isSafe := negb (break tile) in
      let s := revealTile idx tile isSafe s in
      let s := defer (CameraTween (z + 6)) s in
      if negb isSafe then defer GameOverTimer s else
      let s := set_currentExpectedZ (z - (tileSize + tileGapZ)) s in
      let s := set_canClick true s in
      let isLastTile := Qltb (Qabs (z - lastZ nRows)) (1 # 10) in
      if isLastTile then defer VictoryTimer s else s
    end
  end.

(** The object literal [noirInputs]. *)
Definition noirInputs (s : State) : NoirInputs :=
  {| secret_path := map toString (secretPath s);
     user_path := map toString (userPath s);
     public_hash := toString (publicHash s) |}.

(** Resuming a pending task: the body of a timer callback, the end of a
    tween with its [onComplete], or the code between one [await] of the
    [try] block and the next.  A [Throw] lands in the [catch].  The
    constructors [new Noir(program)] and [new UltraHonkBackend(...)] only
    wrap the program and are folded into the calls that use them. *)
Definition runTask (ext : Externals) (t : Task) (s : State) : State :=
  match t with
  | GameOverTimer => reload (alert "❌ Game Over! Wrong tile." s)
  | VictoryTimer => defer VictoryTween s
  | CameraTween _ => s
  | VictoryTween =>
      defer AwaitCircuit (logCall CallGetCircuit (showVictoryText s))
  | AwaitCircuit =>
      match getCircuit ext with
      | Throw e => console_error e s
      | Ok program =>
          let inputs := noirInputs s in
          defer (AwaitExecute program inputs) (logCall (CallExecute program inputs) s)
      end
  | AwaitExecute program inputs =>
      match noir_execute ext program inputs with
      | Throw e => console_error e s
      | Ok witness =>
          defer (AwaitProof program witness)
                (logCall (CallGenerateProof program witness) s)
      end
  | AwaitProof program witness =>
      match generateProof ext program witness with
      | Throw e => console_error e s
      | Ok proof => defer (AwaitDigest proof) (logCall (CallDigest proof) s)
      end
  | AwaitDigest proof =>
      match digest ext proof with
      | Throw e => console_error e s
      | Ok proofHashBuffer => showProof (toHex proofHashBuffer) s
      end
  end.

(** ** Verification listener *)

(** The white space and line terminators of JavaScript among the code units
    below 256: tab, line feed, vertical tab, form feed, carriage return,
    space and the no-break space U+00A0.  (The others, U+1680, U+2000 to
    U+200A, U+2028, U+2029, U+202F, U+205F, U+3000 and U+FEFF, lie above.) *)
Definition isWhiteSpace (c : ascii) : bool :=
  let n := nat_of_ascii c in
  ((9 <=? n) && (n <=? 13) || (n =? 32) || (n =? 160))%nat.

Fixpoint trimStart (s : string) : string :=
  match s with
  | EmptyString => EmptyString
  | String c s' => if isWhiteSpace c then trimStart s' else s
  end.

Fixpoint trimEnd (s : string) : string :=
  match s with
  | EmptyString => EmptyString
  | String c s' =>
      match trimEnd s' with
      | EmptyString => if isWhiteSpace c then EmptyString else String c EmptyString
      | t => String c t
      end
  end.

(** [str.trim()] *)
Definition trim (s : string) : string := trimEnd (trimStart s).

(** The code units below 256 that [toLowerCase] changes: A to Z, and the
    capital letters U+00C0 to U+00DE without the sign U+00D7.  Each has its
    small letter 32 places further. *)
Definition isUpper (c : ascii) : bool :=
  let n := nat_of_ascii c in
  ((65 <=? n) && (n <=? 90)
   || (192 <=? n) && (n <=? 222) && negb (n =? 215))%nat.

Definition lowerChar (c : ascii) : ascii :=
  if isUpper c then ascii_of_nat (nat_of_ascii c + 32) else c.

(** [str.toLowerCase()] *)
Fixpoint toLowerCase (s : string) : string :=
  match s with
  | EmptyString => EmptyString
  | String c s' => String (lowerChar c) (toLowerCase s')
  end.

Definition validHtml : string :=
  "<span style='color: green;'>✅ Valid Proof Hash!</span>".
Definition invalidHtml : string :=
  "<span style='color: red;'>❌ Invalid Proof Hash</span>".
Definition pasteFirst : string := "Paste the proof hash first!".

(** The click listener of the verify button; [value] is the content of the
    proof input field, code unit by code unit, and [proofHash] the digest
    the listener captured. *)
Definition verifyHandler (proofHash value : string) (s : State) : State :=
  let proofInput := trim value in
  if String.eqb proofInput "" then alert pasteFirst s else
  let valid := String.eqb (toLowerCase proofInput) (toLowerCase proofHash) in
  setVerifyResult (if valid then validHtml else invalidHtml) s.

(** ** Events *)

Inductive Event :=
| Click (hit : option nat)
| Resume (k : nat)
| VerifyClick (value : string).

Fixpoint removeAt {A : Type} (k : nat) (l : list A) : list A :=
  match l, k with
  | [], _ => []
  | _ :: l', O => l'
  | a :: l', S k' => a :: removeAt k' l'
  end.

(** One turn of the event loop.  After [location.reload()] the page and
    its listeners no longer exist. *)
Definition step (ext : Externals) (nRows : nat) (s : State) (e : Event) : State :=
  if reloaded (dom s) then s else
  match e with
  | Click hit => clickHandler nRows hit s
  | Resume k =>
      match nth_error (pending s) k with
      | None => s
      | Some t => runTask ext t (set_pending (removeAt k (pending s)) s)
      end
  | VerifyClick value =>
      fold_left (fun s proofHash => verifyHandler proofHash value s)
                (verifyListeners (dom s)) s
  end.

Definition run (ext : Externals) (nRows : nat) (s : State) (es : list Event) : State :=
  fold_left (step ext nRows) es s.

(** The run of a session: the page loads, then events arrive. *)
Definition session (ext : Externals) (nRows nCols : nat) (rnd : nat -> Q)
           (es : list Event) : State :=
  run ext nRows (init ext nRows nCols rnd) es.

(** [Math.random()] returns a number in [0, 1). *)
Definition randomOk (rnd : nat -> Q) : Prop :=
  forall i, (0 <= rnd i)%Q /\ (rnd i < 1)%Q.

(** A click passes the three guards of the listener: the lock is free, the
    ray meets a tile, and the tile lies at the expected depth. *)
Definition accepted (s : State) (hit : option nat) : bool :=
  negb (reloaded (dom s)) && canClick s &&
  match hit with
  | None => false
  | Some idx =>
      match nth_error (tiles s) idx with
      | None => false
      | Some tile =>
          Qle_bool (Qabs (position_z tile - currentExpectedZ s)) (1 # 10)
      end
  end.

Definition isSafeTile (t : Tile) : bool := negb (break t).

(** ** Sample session data

    The board of the end-to-end scenario: three rows, two columns and the
    draws that give the secret path 1, 0, 1; an environment in which every
    external call succeeds, and one whose compiler throws. *)

Definition rndExample (i : nat) : Q := if Nat.even i then 3 # 4 else 1 # 4.

Definition extExample : Externals :=
  {| poseidon2Hash := fun path => fold_left Z.add path 7%Z;
     getCircuit := Ok "bytecode"%string;
     noir_execute := fun _ _ => Ok [1%Z];
     generateProof := fun _ _ => Ok [2%Z; 255%Z];
     digest := fun _ => Ok [171%Z; 5%Z] |}.

Definition extFailing : Externals :=
  {| poseidon2Hash := fun path => fold_left Z.add path 7%Z;
     getCircuit := Throw "compile error"%string;
     noir_execute := fun _ _ => Ok [1%Z];
     generateProof := fun _ _ => Ok [2%Z; 255%Z];
     digest := fun _ => Ok [171%Z; 5%Z] |}.

(** ** Notions used in the statements *)

(** Two tile arrays that differ at most in the colours of the tiles. *)
Definition eraseColor (t : Tile) : Tile := setColor 0 t.

Definition sameBoard (ts ts0 : list Tile) : Prop :=
  map eraseColor ts = map eraseColor ts0.

(** The part of the state that tile input can change. *)
Definition sameGame (s s' : State) : Prop :=
  tiles s' = tiles s /\ symbols s' = symbols s /\
  currentExpectedZ s' = currentExpectedZ s /\
  canClick s' = canClick s /\ userPath s' = userPath s.

(** The tasks that lead from the last safe tile to the proof display. *)
Definition isVictoryTask (t : Task) : bool :=
  match t with
  | GameOverTimer | CameraTween _ => false
  | _ => true
  end.

(** The success UI: digest display, copy buttons, verify control. *)
Definition uiActive (d : Dom) : bool :=
  match proofHashValue d with Some _ => true | None => false end
  || copyButtons d
  || match verifyListeners d with [] => false | _ => true end.

(** How far the one victory of a session has got: waiting in a task, ended
    in the [catch], or shown to the player. *)
Definition tokens (s : State) : nat :=
  List.length (filter isVictoryTask (pending s))
  + Nat.b2n (uiActive (dom s))
  + List.length (console (dom s)).

(** The external call a pipeline task is waiting for throws [e]. *)
Definition throws (ext : Externals) (t : Task) (e : string) : Prop :=
  match t with
  | AwaitCircuit => getCircuit ext = Throw e
  | AwaitExecute program inputs => noir_execute ext program inputs = Throw e
  | AwaitProof program witness => generateProof ext program witness = Throw e
  | AwaitDigest proof => digest ext proof = Throw e
  | _ => False
  end.

(** The state an accepted click leaves behind. *)
Definition afterClick (nRows : nat) (idx : nat) (tile : Tile) (s : State) : State :=
  let z := position_z tile in
  {| tiles := updateAt (setColor (if isSafeTile tile then 0x00aa00 else 0xff0000)) idx (tiles s);
     symbols := symbols s ++
       [ {| isO := isSafeTile tile;
            symbolColor := if isSafeTile tile then 0x008800 else 0x880000;
            symbol_x := position_x tile; symbol_z := z |} ];
     secretPath := secretPath s;
     publicHash := publicHash s;
     currentExpectedZ :=
       if isSafeTile tile then (z - (tileSize + tileGapZ))%Q else currentExpectedZ s;
     canClick := isSafeTile tile;
     userPath := userPath s ++ [directionOf tile];
     pending := (pending s ++ [CameraTween (z + 6)]) ++
       (if isSafeTile tile
        then if Qltb (Qabs (z - lastZ nRows)) (1 # 10) then [VictoryTimer] else []
        else [GameOverTimer]);
     calls := calls s;
     dom := dom s |}.

(** A click that lands outside every tile, or on a tile that does not lie at
    the expected depth. *)
Definition missesExpectedRow (s : State) (hit : option nat) : Prop :=
  match hit with
  | None => True
  | Some idx =>
      forall tile, nth_error (tiles s) idx = Some tile ->
                   ~ (position_z tile == currentExpectedZ s)%Q
  end.

(** What holds of every state of a session. *)
Record Inv (ext : Externals) (nRows nCols : nat) (rnd : nat -> Q) (s : State) : Prop := {
  inv_board : sameBoard (tiles s) (buildTiles nRows nCols rnd);
  inv_secret : secretPath s = buildSecretPath nRows nCols rnd;
  inv_hash : publicHash s = poseidon2Hash ext (buildSecretPath nRows nCols rnd);
  inv_len : (List.length (userPath s) <= nRows)%nat;
  inv_cursor : canClick s = true ->
               (currentExpectedZ s == rowZ (List.length (userPath s)))%Q;
  inv_tokens : (tokens s <= 1)%nat;
  inv_done : (1 <= tokens s)%nat ->
             canClick s = true /\ List.length (userPath s) = nRows
}.

(** The player clicks, row after row from the front, a safe tile of the
    row: [idxs] are the places in [tiles] of the tiles clicked. *)
Definition safeTileOfRow (nRows nCols : nat) (rnd : nat -> Q) (i idx : nat) : Prop :=
  exists t, nth_error (buildTiles nRows nCols rnd) idx = Some t /\
            position_z t = rowZ i /\ break t = false.

Definition safeWalk (nRows nCols : nat) (rnd : nat -> Q) (idxs : list nat) : Prop :=
  Forall2 (safeTileOfRow nRows nCols rnd) (seq 0 nRows) idxs.

(** The proof input made of a secret path, a user path and a commitment. *)
Definition proofInput (secret user : list Z) (commitment : Z) : NoirInputs :=
  {| secret_path := map toString secret;
     user_path := map toString user;
     public_hash := toString commitment |}.

(** Every witness execution in the log was given [inputs]. *)
Definition executedWith (inputs : NoirInputs) (c : Call) : Prop :=
  match c with
  | CallExecute _ inp => inp = inputs
  | _ => True
  end.

(** Events other than clicks: a timer fires, a tween ends, an awaited
    promise settles, or the verify button is pressed. *)
Definition isIdle (e : Event) : Prop :=
  match e with
  | Click _ => False
  | _ => True
  end.

(** A run made of clicks on the tiles [idx], each preceded by any number of
    events that are not clicks. *)
Definition walkEvents (steps : list (list Event * nat)) : list Event :=
  flat_map (fun st => fst st ++ [Click (Some (snd st))]) steps.

Definition isCameraTween (t : Task) : bool :=
  match t with
  | CameraTween _ => true
  | _ => false
  end.

(** The state of a session in which the first [a] rows have been walked on
    safe tiles and no other tile has been clicked. *)
Definition walked (ext : Externals) (nRows nCols : nat) (rnd : nat -> Q)
           (a : nat) (s : State) : Prop :=
  Inv ext nRows nCols rnd s /\
  dom s = emptyDom /\
  canClick s = true /\
  userPath s = buildSecretPath a nCols rnd /\
  calls s = [] /\
  exists tweens,
    Forall (fun t => isCameraTween t = true) tweens /\
    pending s = tweens ++ (if (0 <? a)%nat && (a =? nRows)%nat then [VictoryTimer] else []).

(** Equality up to letter case, in the words of the specification: the two
    strings have the same length and, place by place, the same character or
    the two cases of one letter. *)
Definition sameLetter (a b : ascii) : bool :=
  Ascii.eqb a b
  || (isUpper a && (nat_of_ascii b =? nat_of_ascii a + 32)%nat)
  || (isUpper b && (nat_of_ascii a =? nat_of_ascii b + 32)%nat).

Fixpoint equalUpToCase (s t : string) : bool :=
  match s, t with
  | EmptyString, EmptyString => true
  | String a s', String b t' => sameLetter a b && equalUpToCase s' t'
  | _, _ => false
  end.

Definition allAscii : list ascii := map ascii_of_nat (seq 0 256).

(** The verify listener holds the digest on display. *)
Definition listenerOfDisplay (s : State) : Prop :=
  verifyListeners (dom s)
  = match proofHashValue (dom s) with Some h => [h] | None => [] end.

(** The sample session played to the end: the walk, the victory and the
    four stages of the pipeline. *)
Definition wonEvents : list Event :=
  [Click (Some 1%nat); Click (Some 2%nat); Click (Some 5%nat);
   Resume 3; Resume 3; Resume 3; Resume 3; Resume 3; Resume 3].

Definition wonExample : State := session extExample numRows numCols rndExample wonEvents.

(** ** Hex utilities *)

Definition isHexDigit (c : ascii) : bool :=
  let n := nat_of_ascii c in
  ((48 <=? n) && (n <=? 57) || (97 <=? n) && (n <=? 102) || (65 <=? n) && (n <=? 70))%nat.

Definition isLowerHexDigit (c : ascii) : bool :=
  let n := nat_of_ascii c in
  ((48 <=? n) && (n <=? 57) || (97 <=? n) && (n <=? 102))%nat.

Definition hexValue (c : ascii) : Z :=
  let n := nat_of_ascii c in
  if (n <=? 57)%nat then Z.of_nat n - 48
  else if (n <=? 70)%nat then Z.of_nat n - 55
  else Z.of_nat n - 87.

(** The value of the longest prefix of [s] made of hex digits, or [acc] when
    there is none: [acc] is the value of the digits read so far. *)
Fixpoint hexPrefixValue (acc : option Z) (s : string) : option Z :=
  match s with
  | EmptyString => acc
  | String c s' =>
      if isHexDigit c
      then hexPrefixValue
             (Some (16 * match acc with Some a => a | None => 0 end + hexValue c)%Z) s'
      else acc
  end.

(** [parseInt(str, 16)]: leading white space (that of [trim]) is skipped,
    then a sign, then a prefix 0x or 0X; the digits that follow are read as
    far as they go.  [None] is [NaN].  The value is exact for the texts of
    two characters that [hexToBuffer] passes. *)
Definition parseInt16 (str : string) : option Z :=
  let S := trimStart str in
  let sign_rest :=
    match S with
    | String c r =>
        if Ascii.eqb c "-" then ((-1)%Z, r)
        else if Ascii.eqb c "+" then (1%Z, r)
        else (1%Z, S)
    | EmptyString => (1%Z, S)
    end in
  let S := snd sign_rest in
  let S := if String.prefix "0x" S || String.prefix "0X" S
           then substring 2 (String.length S - 2) S else S in
  match hexPrefixValue None S with
  | None => None
  | Some v => Some (fst sign_rest * v)%Z
  end.

(** Storing a number in a [Uint8Array]: [NaN] becomes 0, an integer is
    taken modulo 256. *)
Definition toUint8 (v : option Z) : Z :=
  match v with
  | None => 0%Z
  | Some n => (n mod 256)%Z
  end.

(** The loop of [hexToBuffer]: [hex.substr(i, 2)] for i = 0, 2, 4, ... is
    parsed and stored at place i / 2.  The array has [hex.length / 2]
    places, rounded down, so that the write for a last character without a
    partner falls outside of it and is dropped.  Lengths and places count
    code units, here the characters of the [string]. *)
Fixpoint hexPairs (hex : string) : Bytes :=
  match hex with
  | String a (String b rest) =>
      toUint8 (parseInt16 (String a (String b EmptyString))) :: hexPairs rest
  | _ => []
  end.

(** [hexToBuffer(hex)] *)
Definition hexToBuffer (hex : string) : Bytes :=
  let hex := if String.prefix "0x" hex
             then substring 2 (String.length hex - 2) hex else hex in
  hexPairs hex.

(** A byte of a [Uint8Array]. *)
Definition isByte (b : Z) : Prop := (0 <= b < 256)%Z.

Fixpoint allChars (f : ascii -> bool) (s : string) : bool :=
  match s with
  | EmptyString => true
  | String c s' => f c && allChars f s'
  end.

Definition noSpace (c : ascii) : bool := negb (isWhiteSpace c).

(** ** Notions used in the further properties *)

Definition gameOverMsg : string := "❌ Game Over! Wrong tile.".

(** A tile that [revealTile] has coloured. *)
Definition isRevealed (t : Tile) : bool := negb (color t =? 0x333333)%Z.
(** The game-over notice is scheduled or has been shown. *)
Definition gameOver (s : State) : Prop :=
  In GameOverTimer (pending s) \/ reloaded (dom s) = true.

(** The four calls of a pipeline that ran to its end. *)
Definition fullCalls (p : Program) (inputs : NoirInputs) (w : Witness) (pr : Bytes)
  : list Call :=
  [CallGetCircuit; CallExecute p inputs; CallGenerateProof p w; CallDigest pr].

(** What a pending task of the victory says about the calls made so far:
    each stage waits for the call logged last, made with the result of the
    stage before it. *)
Definition chain (ext : Externals) (inputs : NoirInputs) (cs : list Call) (t : Task)
  : Prop :=
  match t with
  | GameOverTimer | CameraTween _ => True
  | VictoryTimer | VictoryTween => cs = []
  | AwaitCircuit => cs = [CallGetCircuit]
  | AwaitExecute p i =>
      getCircuit ext = Ok p /\ i = inputs /\
      cs = [CallGetCircuit; CallExecute p inputs]
  | AwaitProof p w =>
      getCircuit ext = Ok p /\ noir_execute ext p inputs = Ok w /\
      cs = [CallGetCircuit; CallExecute p inputs; CallGenerateProof p w]
  | AwaitDigest pr =>
      exists p w,
        getCircuit ext = Ok p /\ noir_execute ext p inputs = Ok w /\
        generateProof ext p w = Ok pr /\ cs = fullCalls p inputs w pr
  end.

(** The digest [h] on display is the hex form of the digest of the proof
    generated from the witness of [inputs]. *)
Definition shownChain (ext : Externals) (inputs : NoirInputs) (cs : list Call)
           (h : string) : Prop :=
  exists p w pr d,
    getCircuit ext = Ok p /\ noir_execute ext p inputs = Ok w /\
    generateProof ext p w = Ok pr /\ digest ext pr = Ok d /\
    h = toHex d /\ cs = fullCalls p inputs w pr.

(** The error [e] on the console was thrown by the call logged last, every
    call before it having returned. *)
Definition failChain (ext : Externals) (inputs : NoirInputs) (cs : list Call)
           (e : string) : Prop :=
  (getCircuit ext = Throw e /\ cs = [CallGetCircuit]) \/
  (exists p, getCircuit ext = Ok p /\ noir_execute ext p inputs = Throw e /\
             cs = [CallGetCircuit; CallExecute p inputs]) \/
  (exists p w, getCircuit ext = Ok p /\ noir_execute ext p inputs = Ok w /\
               generateProof ext p w = Throw e /\
               cs = [CallGetCircuit; CallExecute p inputs; CallGenerateProof p w]) \/
  (exists p w pr, getCircuit ext = Ok p /\ noir_execute ext p inputs = Ok w /\
                  generateProof ext p w = Ok pr /\ digest ext pr = Throw e /\
                  cs = fullCalls p inputs w pr).

(** What holds of every state of a session, besides [Inv]. *)
Record Inv2 (ext : Externals) (nRows : nat) (s : State) : Prop := {
  f_lock : canClick s = false <-> gameOver s;
  f_alert : reloaded (dom s) = true <-> In gameOverMsg (alerts (dom s));
  r_symbols : List.length (symbols s) = List.length (userPath s);
  r_color : forall t, In t (tiles s) ->
            color t = 0x333333%Z \/
            (color t = 0x00aa00%Z /\ break t = false) \/
            (color t = 0xff0000%Z /\ break t = true);
  r_rows : forall t, In t (tiles s) -> isRevealed t = true ->
           exists i, position_z t = rowZ i /\ (i < List.length (userPath s))%nat;
  r_count : List.length (filter isRevealed (tiles s)) = List.length (userPath s);
  r_red : forall t, In t (tiles s) -> color t = 0xff0000%Z -> canClick s = false;
  v_idle : tokens s = 0%nat -> calls s = [] /\ victoryText (dom s) = false;
  v_text : victoryText (dom s) = true <-> calls s <> [];
  v_chain : forall t, In t (pending s) -> chain ext (noirInputs s) (calls s) t;
  v_shown : forall h, proofHashValue (dom s) = Some h ->
            shownChain ext (noirInputs s) (calls s) h /\
            copyButtons (dom s) = true /\ verifyListeners (dom s) = [h];
  v_hidden : proofHashValue (dom s) = None ->
             copyButtons (dom s) = false /\ verifyListeners (dom s) = [];
  v_error : forall e, In e (console (dom s)) ->
            failChain ext (noirInputs s) (calls s) e;
  p_full : (1 <= nRows)%nat -> canClick s = true ->
           List.length (userPath s) = nRows -> (1 <= tokens s)%nat
}.
(** On the board of the script: how the user path relates to the secret
    path.  While the lock is free the user path is the secret path of the
    rows walked; once it is held the last entry is the wrong one. *)
Definition pathAgrees (rnd : nat -> Q) (s : State) : Prop :=
  (canClick s = true ->
   exists a, userPath s = buildSecretPath a numCols rnd) /\
  (canClick s = false ->
   exists a w, userPath s = buildSecretPath a numCols rnd ++ [w] /\
               w <> safeIndexOf numCols (rnd a)).

(** The contract of [crypto.subtle.digest]: the buffer it resolves to holds
    bytes. *)
Definition digestBytes (ext : Externals) : Prop :=
  forall proof d, digest ext proof = Ok d -> Forall isByte d.
(** A lost session: a break tile of the second row after the safe tile of
    the first. *)
Definition lostEvents : list Event := [Click (Some 1%nat); Click (Some 3%nat)].

(** A session whose compiler throws, played until the error is logged. *)
Definition failedEvents : list Event :=
  [Click (Some 1%nat); Click (Some 2%nat); Click (Some 5%nat);
   Resume 3; Resume 3; Resume 3].

(** The no-break space U+00A0. *)
Definition nbsp : ascii := "160"%char.

(** ** Commitment display *)




(** ** Decorations *)

(** The position of a bulb of a light line. *)
Record Bulb := { bulb_x : Q; bulb_y : Q; bulb_z : Q }.

(** [gateZ] *)
Definition gateZ (nRows : nat) : Q :=
  (- inject_Z (Z.of_nat nRows) * (tileSize + tileGapZ) - 2)%Q.

(** [createLightLine(zStart, zEnd, x, interval)]: the bulbs of the group it
    adds to the scene, in the order of the loop, in exact arithmetic.
    [steps] is [Math.floor(Math.abs(zEnd - zStart) / interval)] and the loop
    runs for i = 0, ..., steps, not at all when [steps] is negative.  With
    an interval of 0 the quotient is no number when the two ends are equal
    (0 / 0 is [NaN], the test [i <= steps] fails at once and no bulb is
    made) and is infinite otherwise, when the loop does not end: [None].
    The zero of [Q] stands for the positive zero. *)
Definition createLightLine (zStart zEnd x interval : Q) : option (list Bulb) :=
  if Qeq_bool interval 0 then
    if Qeq_bool zEnd zStart then Some [] else None
  else
  let steps := Qfloor (Qabs (zEnd - zStart) / interval) in
  Some (map (fun i => {| bulb_x := x; bulb_y := 7 # 10;
                         bulb_z := (zStart - inject_Z (Z.of_nat i) * interval)%Q |})
            (seq 0 (Z.to_nat (steps + 1)))).

(** * Properties *)

(** ** Depth coordinates of rows *)

Lemma rowZ_next (i : nat) :
  (rowZ i - (tileSize + tileGapZ) == rowZ (S i))%Q.
Proof.
  unfold rowZ, tileSize, tileGapZ.
  rewrite Nat2Z.inj_succ. unfold Z.succ. rewrite inject_Z_plus.
  change (inject_Z 1) with 1%Q. lra.
Qed.

Lemma inject_nat_lt (i k : nat) :
  (i < k)%nat -> (inject_Z (Z.of_nat i) + 1 <= inject_Z (Z.of_nat k))%Q.
Proof.
  intros H. change 1%Q with (inject_Z 1). rewrite <- inject_Z_plus.
  rewrite <- Zle_Qle. lia.
Qed.

(** Two rows whose depths are within 0.1 of each other are the same row. *)
Lemma rowZ_close (i k : nat) (c : Q) :
  (c == rowZ k)%Q ->
  (Qabs (rowZ i - c) <= 1 # 10)%Q -> i = k.
Proof.
  intros Hc Habs. rewrite Hc in Habs.
  apply Qabs_Qle_condition in Habs. destruct Habs as [Hlo Hhi].
  unfold rowZ, tileSize, tileGapZ in *.
  destruct (lt_eq_lt_dec i k) as [[Hlt | Heq] | Hgt]; [ | exact Heq | ].
  - apply inject_nat_lt in Hlt. lra.
  - apply inject_nat_lt in Hgt. lra.
Qed.

Lemma lastZ_rowZ (n : nat) : (lastZ (S n) == rowZ n)%Q.
Proof.
  unfold lastZ, rowZ. rewrite Nat2Z.inj_succ. unfold Z.succ.
  rewrite inject_Z_plus. change (inject_Z 1) with 1%Q. lra.
Qed.

(** ** The board as built *)

Lemma safeIndexOf_range (nCols : nat) (r : Q) :
  (1 <= nCols)%nat -> (0 <= r)%Q -> (r < 1)%Q ->
  (0 <= safeIndexOf nCols r < Z.of_nat nCols)%Z.
Proof.
  intros Hn H0 H1. unfold safeIndexOf.
  assert (Hpos : (0 < inject_Z (Z.of_nat nCols))%Q).
  { change 0%Q with (inject_Z 0). rewrite <- Zlt_Qlt. lia. }
  split.
  - change 0%Z with (Qfloor 0). apply Qfloor_resp_le. nra.
  - pose proof (Qfloor_le (r * inject_Z (Z.of_nat nCols))) as Hfl.
    rewrite Zlt_Qlt. eapply Qle_lt_trans; [ exact Hfl | ]. nra.
Qed.

Lemma count_eq_seq (v : Z) (a n : nat) :
  (Z.of_nat a <= v < Z.of_nat (a + n))%Z ->
  List.length (filter (fun j => (Z.of_nat j =? v)%Z) (seq a n)) = 1%nat.
Proof.
  revert a. induction n as [| n IH]; intros a H.
  - lia.
  - simpl. destruct (Z.eqb_spec (Z.of_nat a) v) as [E | E].
    + simpl. f_equal.
      assert (Hnone : forall m b, (v < Z.of_nat b)%Z ->
                filter (fun j => (Z.of_nat j =? v)%Z) (seq b m) = []).
      { induction m as [| m IHm]; intros b Hb; [ reflexivity | ].
        simpl. destruct (Z.eqb_spec (Z.of_nat b) v); [ lia | ].
        apply IHm. lia. }
      rewrite Hnone by lia. reflexivity.
    + apply IH. lia.
Qed.

Lemma rowTiles_length (nCols i : nat) (safe : Z) :
  List.length (rowTiles nCols i safe) = nCols.
Proof. unfold rowTiles. now rewrite length_map, length_seq. Qed.

Lemma rowTiles_safe_count (nCols i : nat) (safe : Z) :
  (0 <= safe < Z.of_nat nCols)%Z ->
  List.length (filter isSafeTile (rowTiles nCols i safe)) = 1%nat.
Proof.
  intros H. unfold rowTiles.
  assert (E : forall l, List.length (filter isSafeTile (map (fun j => mkTile i j safe) l))
                        = List.length (filter (fun j => (Z.of_nat j =? safe)%Z) l)).
  { induction l as [| j l IH]; [ reflexivity | ].
    simpl. unfold isSafeTile at 1. simpl. rewrite negb_involutive.
    destruct (Z.of_nat j =? safe)%Z; simpl; now rewrite IH. }
  rewrite E. apply count_eq_seq. simpl. lia.
Qed.

Lemma rowTiles_In (nCols i : nat) (safe : Z) (t : Tile) :
  In t (rowTiles nCols i safe) ->
  exists j, (j < nCols)%nat /\ t = mkTile i j safe.
Proof.
  unfold rowTiles. intros H. apply in_map_iff in H.
  destruct H as [j [Hj Hin]]. apply in_seq in Hin. exists j. split; [ lia | now symmetry ].
Qed.

Lemma boardRows_nth (nRows nCols : nat) (rnd : nat -> Q) (i : nat) :
  (i < nRows)%nat ->
  nth_error (boardRows nRows nCols rnd) i
  = Some (rowTiles nCols i (safeIndexOf nCols (rnd i))).
Proof.
  intros H. unfold boardRows.
  rewrite nth_error_map, nth_error_nth' with (d := 0%nat) by (now rewrite length_seq).
  rewrite seq_nth by assumption. reflexivity.
Qed.

Lemma buildSecretPath_nth (nRows nCols : nat) (rnd : nat -> Q) (i : nat) :
  (i < nRows)%nat ->
  nth_error (buildSecretPath nRows nCols rnd) i = Some (safeIndexOf nCols (rnd i)).
Proof.
  intros H. unfold buildSecretPath.
  rewrite nth_error_map, nth_error_nth' with (d := 0%nat) by (now rewrite length_seq).
  rewrite seq_nth by assumption. reflexivity.
Qed.

Lemma buildTiles_In (nRows nCols : nat) (rnd : nat -> Q) (t : Tile) :
  In t (buildTiles nRows nCols rnd) ->
  exists i j, (i < nRows)%nat /\ (j < nCols)%nat /\
              t = mkTile i j (safeIndexOf nCols (rnd i)).
Proof.
  unfold buildTiles, boardRows. intros H.
  apply in_concat in H. destruct H as [row [Hrow Hin]].
  apply in_map_iff in Hrow. destruct Hrow as [i [Hi Hseq]]. subst row.
  apply in_seq in Hseq. apply rowTiles_In in Hin. destruct Hin as [j [Hj Ht]].
  exists i, j. repeat split; [ lia | assumption | assumption ].
Qed.

Lemma rndExample_ok : randomOk rndExample.
Proof.
  intros i. unfold rndExample. destruct (Nat.even i); split; reflexivity || discriminate.
Defined.

(** ** Path generation *)

(** C5: for a board with at least one column (so also for rowCount >= 1 and
    columnCount >= 2) and draws in [0, 1), the secret path has one entry per
    row, every entry is a column index in [0, columnCount), and in each row
    of the board exactly one tile is safe: the tile whose column is the
    row's entry of the secret path; all the others are break tiles. *)
Theorem C5_path_generation (ext : Externals) (nRows nCols : nat) (rnd : nat -> Q) :
  (1 <= nCols)%nat -> randomOk rnd ->
  let s := init ext nRows nCols rnd in
  List.length (secretPath s) = nRows /\
  Forall (fun v => 0 <= v < Z.of_nat nCols)%Z (secretPath s) /\
  tiles s = List.concat (boardRows nRows nCols rnd) /\
  List.length (boardRows nRows nCols rnd) = nRows /\
  forall i, (i < nRows)%nat ->
    exists row safe,
      nth_error (boardRows nRows nCols rnd) i = Some row /\
      nth_error (secretPath s) i = Some safe /\
      List.length row = nCols /\
      List.length (filter isSafeTile row) = 1%nat /\
      forall t, In t row ->
        position_z t = rowZ i /\
        (break t = false <-> Z.of_nat (colIndex t) = safe).
Proof.
  intros Hc Hr s. subst s. simpl.
  split; [ | split; [ | split; [ | split ] ] ].
  - unfold buildSecretPath. now rewrite length_map, length_seq.
  - unfold buildSecretPath. apply Forall_forall. intros v Hv.
    apply in_map_iff in Hv. destruct Hv as [i [<- _]].
    destruct (Hr i). now apply safeIndexOf_range.
  - reflexivity.
  - unfold boardRows. now rewrite length_map, length_seq.
  - intros i Hi.
    exists (rowTiles nCols i (safeIndexOf nCols (rnd i))), (safeIndexOf nCols (rnd i)).
    split; [ now apply boardRows_nth | ].
    split; [ now apply buildSecretPath_nth | ].
    split; [ apply rowTiles_length | ].
    split.
    + apply rowTiles_safe_count. destruct (Hr i). now apply safeIndexOf_range.
    + intros t Ht. apply rowTiles_In in Ht. destruct Ht as [j [_ ->]]. simpl.
      split; [ reflexivity | ].
      destruct (Z.eqb_spec (Z.of_nat j) (safeIndexOf nCols (rnd i))); simpl;
        split; congruence.
Qed.

Lemma C5_path_generation_witness :
  randomOk rndExample /\
  List.length (secretPath (init extExample numRows numCols rndExample)) = 3%nat /\
  Forall (fun v => 0 <= v < 2)%Z (secretPath (init extExample numRows numCols rndExample)).
Proof.
  split; [ exact rndExample_ok | ].
  pose proof (C5_path_generation extExample numRows numCols rndExample
                (le_S 1 1 (le_n 1)) rndExample_ok) as H.
  split; [ exact (proj1 H) | exact (proj1 (proj2 H)) ].
Defined.

(** ** The click listener, case by case *)

Lemma step_rejected (ext : Externals) (nRows : nat) (s : State) (hit : option nat) :
  accepted s hit = false -> step ext nRows s (Click hit) = s.
Proof.
  unfold accepted, step, clickHandler, Qgtb.
  destruct (reloaded (dom s)); [ reflexivity | ].
  destruct (canClick s); [ | reflexivity ].
  destruct hit as [idx |]; [ | reflexivity ].
  destruct (nth_error (tiles s) idx) as [tile |]; [ | reflexivity ].
  simpl. intros ->. reflexivity.
Qed.

Lemma step_accepted (ext : Externals) (nRows : nat) (s : State) (idx : nat) (tile : Tile) :
  accepted s (Some idx) = true ->
  nth_error (tiles s) idx = Some tile ->
  step ext nRows s (Click (Some idx)) = afterClick nRows idx tile s.
Proof.
  unfold accepted, step, clickHandler, Qgtb, afterClick, isSafeTile.
  intros Hacc Hnth. rewrite Hnth in *.
  destruct (reloaded (dom s)); [ discriminate | ].
  destruct (canClick s); [ | discriminate ].
  cbn [negb andb] in Hacc. rewrite Hacc. cbn [negb].
  destruct (break tile); cbn [negb].
  - reflexivity.
  - destruct (Qltb (Qabs (position_z tile - lastZ nRows)) (1 # 10)).
    + reflexivity.
    + unfold set_canClick, set_currentExpectedZ, defer, revealTile, set_symbols,
        set_tiles, set_userPath, set_pending; cbn -[Qminus Qplus Qabs].
      rewrite app_nil_r. reflexivity.
Qed.

Lemma accepted_tile (s : State) (hit : option nat) :
  accepted s hit = true ->
  exists idx tile,
    hit = Some idx /\ nth_error (tiles s) idx = Some tile /\
    reloaded (dom s) = false /\ canClick s = true /\
    (Qabs (position_z tile - currentExpectedZ s) <= 1 # 10)%Q.
Proof.
  unfold accepted. intros H.
  apply andb_prop in H. destruct H as [H Hq].
  apply andb_prop in H. destruct H as [Hr Hc].
  destruct hit as [idx |]; [ | discriminate ].
  destruct (nth_error (tiles s) idx) as [tile |] eqn:E; [ | discriminate ].
  exists idx, tile. apply Qle_bool_iff in Hq.
  apply negb_true_iff in Hr. auto.
Qed.

(** ** What the other handlers leave alone *)

Lemma sameGame_refl (s : State) : sameGame s s.
Proof. unfold sameGame. auto. Qed.

Lemma sameGame_trans (s1 s2 s3 : State) :
  sameGame s1 s2 -> sameGame s2 s3 -> sameGame s1 s3.
Proof.
  unfold sameGame. intros (A1 & A2 & A3 & A4 & A5) (B1 & B2 & B3 & B4 & B5).
  repeat split; congruence.
Qed.

Lemma runTask_game (ext : Externals) (t : Task) (s : State) :
  sameGame s (runTask ext t s) /\
  secretPath (runTask ext t s) = secretPath s /\
  publicHash (runTask ext t s) = publicHash s.
Proof.
  unfold sameGame.
  destruct t; simpl;
    try destruct (getCircuit ext);
    try destruct (noir_execute ext program inputs);
    try destruct (generateProof ext program witness);
    try destruct (digest ext proof);
    simpl; auto 10.
Qed.

Lemma verifyHandler_game (proofHash value : string) (s : State) :
  sameGame s (verifyHandler proofHash value s) /\
  secretPath (verifyHandler proofHash value s) = secretPath s /\
  publicHash (verifyHandler proofHash value s) = publicHash s /\
  pending (verifyHandler proofHash value s) = pending s /\
  calls (verifyHandler proofHash value s) = calls s /\
  console (dom (verifyHandler proofHash value s)) = console (dom s) /\
  proofHashValue (dom (verifyHandler proofHash value s)) = proofHashValue (dom s) /\
  copyButtons (dom (verifyHandler proofHash value s)) = copyButtons (dom s) /\
  verifyListeners (dom (verifyHandler proofHash value s)) = verifyListeners (dom s) /\
  reloaded (dom (verifyHandler proofHash value s)) = reloaded (dom s).
Proof.
  unfold verifyHandler, sameGame.
  destruct (String.eqb (trim value) ""); simpl; auto 20.
Qed.

Lemma verifyAll_game (value : string) (ls : list string) (s : State) :
  let s' := fold_left (fun s proofHash => verifyHandler proofHash value s) ls s in
  sameGame s s' /\ secretPath s' = secretPath s /\ publicHash s' = publicHash s /\
  pending s' = pending s /\ calls s' = calls s /\
  console (dom s') = console (dom s) /\
  proofHashValue (dom s') = proofHashValue (dom s) /\
  copyButtons (dom s') = copyButtons (dom s) /\
  verifyListeners (dom s') = verifyListeners (dom s) /\
  reloaded (dom s') = reloaded (dom s).
Proof.
  revert s. induction ls as [| h ls IH]; intros s; simpl.
  - unfold sameGame. auto 20.
  - specialize (IH (verifyHandler h value s)). simpl in IH.
    pose proof (verifyHandler_game h value s) as V.
    destruct IH as (I1 & I2 & I3 & I4 & I5 & I6 & I7 & I8 & I9 & I10).
    destruct V as (V1 & V2 & V3 & V4 & V5 & V6 & V7 & V8 & V9 & V10).
    split; [ eapply sameGame_trans; eassumption | ].
    repeat split; congruence.
Qed.

(** Only an accepted click changes the game, and nothing changes the secret
    path or the commitment. *)
Lemma step_frame (ext : Externals) (nRows : nat) (s : State) (e : Event) :
  (forall hit, e = Click hit -> accepted s hit = false) ->
  sameGame s (step ext nRows s e).
Proof.
  intros H. destruct e as [hit | k | value].
  - rewrite step_rejected by (now apply H). apply sameGame_refl.
  - unfold step. destruct (reloaded (dom s)); [ apply sameGame_refl | ].
    destruct (nth_error (pending s) k) as [t |]; [ | apply sameGame_refl ].
    apply (runTask_game ext t (set_pending (removeAt k (pending s)) s)).
  - unfold step. destruct (reloaded (dom s)); [ apply sameGame_refl | ].
    apply verifyAll_game.
Qed.

Lemma run_app (ext : Externals) (nRows : nat) (s : State) (es es' : list Event) :
  run ext nRows s (es ++ es') = run ext nRows (run ext nRows s es) es'.
Proof. unfold run. apply fold_left_app. Qed.

(** An invariant of [step] holds along every run. *)
Lemma run_invariant (ext : Externals) (nRows : nat) (P : State -> Prop) :
  (forall s e, P s -> P (step ext nRows s e)) ->
  forall es s, P s -> P (run ext nRows s es).
Proof.
  intros Hstep. induction es as [| e es IH]; intros s Hs; simpl.
  - exact Hs.
  - apply IH. apply Hstep. exact Hs.
Qed.

(** ** The board during a session *)

Lemma sameBoard_updateAt (c : Z) (idx : nat) (ts ts0 : list Tile) :
  sameBoard ts ts0 -> sameBoard (updateAt (setColor c) idx ts) ts0.
Proof.
  unfold sameBoard. intros <-. revert idx.
  induction ts as [| t ts IH]; intros [| idx]; simpl; try reflexivity.
  now rewrite IH.
Qed.

Lemma sameBoard_nth (ts ts0 : list Tile) (idx : nat) (t : Tile) :
  sameBoard ts ts0 -> nth_error ts idx = Some t ->
  exists t0, nth_error ts0 idx = Some t0 /\ eraseColor t0 = eraseColor t.
Proof.
  unfold sameBoard. intros Hmap Hnth.
  assert (H : nth_error (map eraseColor ts0) idx = Some (eraseColor t)).
  { rewrite <- Hmap. now apply map_nth_error. }
  rewrite nth_error_map in H.
  destruct (nth_error ts0 idx) as [t0 |]; [ | discriminate ].
  exists t0. split; [ reflexivity | ]. simpl in H. congruence.
Qed.

(** Every tile of a session is a tile of the board as built, up to colour. *)
Lemma tile_geometry (nRows nCols : nat) (rnd : nat -> Q) (ts : list Tile)
      (idx : nat) (tile : Tile) :
  sameBoard ts (buildTiles nRows nCols rnd) ->
  nth_error ts idx = Some tile ->
  exists i j,
    (i < nRows)%nat /\ (j < nCols)%nat /\
    nth_error (buildTiles nRows nCols rnd) idx
      = Some (mkTile i j (safeIndexOf nCols (rnd i))) /\
    position_z tile = rowZ i /\ colIndex tile = j /\
    position_x tile = nth_error tileOffsets j /\
    break tile = negb (Z.of_nat j =? safeIndexOf nCols (rnd i))%Z.
Proof.
  intros Hb Hn. destruct (sameBoard_nth _ _ idx _ Hb Hn) as [t0 [Hn0 He]].
  pose proof (nth_error_In _ _ Hn0) as Hin.
  apply buildTiles_In in Hin. destruct Hin as (i & j & Hi & Hj & ->).
  exists i, j. unfold eraseColor, setColor in He.
  injection He as Hx Hz Hc Hbr. simpl in *. auto 10.
Qed.

(** ** Counting the victory *)

Lemma filter_removeAt (A : Type) (f : A -> bool) (l : list A) (k : nat) (a : A) :
  nth_error l k = Some a ->
  List.length (filter f l)
  = (List.length (filter f (removeAt k l)) + Nat.b2n (f a))%nat.
Proof.
  revert k. induction l as [| x l IH]; intros [| k] H; simpl in *; try discriminate.
  - injection H as ->. destruct (f a); simpl; lia.
  - specialize (IH k H). destruct (f x); simpl; lia.
Qed.

Lemma tokens_runTask (ext : Externals) (s : State) (k : nat) (t : Task) :
  nth_error (pending s) k = Some t ->
  (tokens s <= 1)%nat ->
  tokens (runTask ext t (set_pending (removeAt k (pending s)) s)) = tokens s.
Proof.
  intros Hn Ht. unfold tokens, uiActive in *.
  rewrite (filter_removeAt _ isVictoryTask _ _ _ Hn) in *.
  destruct t; simpl in *;
    try destruct (getCircuit ext);
    try destruct (noir_execute ext program inputs);
    try destruct (generateProof ext program witness);
    try destruct (digest ext proof);
    simpl; rewrite ?filter_app, ?length_app; simpl; try lia.
  all: destruct (proofHashValue (dom s)); simpl in *; try lia.
  all: destruct (copyButtons (dom s)); simpl in *; try lia.
  all: destruct (verifyListeners (dom s)); simpl in *; lia.
Qed.

Lemma tokens_afterClick (nRows idx : nat) (tile : Tile) (s : State) :
  tokens (afterClick nRows idx tile s)
  = (tokens s +
     Nat.b2n (isSafeTile tile && Qltb (Qabs (position_z tile - lastZ nRows)) (1 # 10)))%nat.
Proof.
  unfold tokens, afterClick. cbn [pending dom].
  rewrite !filter_app, !length_app.
  destruct (isSafeTile tile); cbn [andb];
    [ destruct (Qltb (Qabs (position_z tile - lastZ nRows)) (1 # 10)) | ];
    cbn [filter isVictoryTask List.length Nat.b2n]; lia.
Qed.

(** ** The session invariant *)

Lemma Inv_init (ext : Externals) (nRows nCols : nat) (rnd : nat -> Q) :
  Inv ext nRows nCols rnd (init ext nRows nCols rnd).
Proof.
  constructor; simpl; try reflexivity; try lia.
  - unfold tokens. simpl. lia.
  - unfold tokens. simpl. lia.
Qed.

(** An accepted click hits a tile of the row after the rows walked so far. *)
Lemma accepted_row (ext : Externals) (nRows nCols : nat) (rnd : nat -> Q)
      (s : State) (idx : nat) (tile : Tile) :
  Inv ext nRows nCols rnd s ->
  accepted s (Some idx) = true ->
  nth_error (tiles s) idx = Some tile ->
  position_z tile = rowZ (List.length (userPath s)) /\
  (List.length (userPath s) < nRows)%nat.
Proof.
  intros I A Hn.
  destruct (accepted_tile s _ A) as (idx' & tile' & E & Hn' & _ & Hc & Habs).
  injection E as <-. rewrite Hn in Hn'. injection Hn' as <-.
  destruct (tile_geometry _ _ _ _ idx _ (inv_board _ _ _ _ _ I) Hn) as (i & j & Hi & _ & _ & Hz & _).
  rewrite Hz in Habs.
  pose proof (rowZ_close i _ _ (inv_cursor _ _ _ _ _ I Hc) Habs) as E. subst i.
  auto.
Qed.

Lemma last_tile_row (nRows i : nat) :
  (i < nRows)%nat ->
  Qltb (Qabs (rowZ i - lastZ nRows)) (1 # 10) = true ->
  S i = nRows.
Proof.
  intros Hi H. destruct nRows as [| n]; [ lia | ]. f_equal.
  unfold Qltb in H. apply negb_true_iff in H.
  apply (rowZ_close i n (lastZ (S n))); [ apply lastZ_rowZ | ].
  destruct (Qlt_le_dec (Qabs (rowZ i - lastZ (S n))) (1 # 10)) as [Hlt | Hle].
  - now apply Qlt_le_weak.
  - apply Qle_bool_iff in Hle. congruence.
Qed.

Lemma Inv_step (ext : Externals) (nRows nCols : nat) (rnd : nat -> Q)
      (s : State) (e : Event) :
  Inv ext nRows nCols rnd s -> Inv ext nRows nCols rnd (step ext nRows s e).
Proof.
  intros I. destruct e as [hit | k | value].
  - destruct (accepted s hit) eqn:A; [ | now rewrite step_rejected ].
    destruct (accepted_tile s hit A) as (idx & tile & -> & Hn & _ & Hc & _).
    destruct (accepted_row _ _ _ _ _ _ _ I A Hn) as [Hz Hlen].
    rewrite (step_accepted ext nRows s idx tile A Hn).
    assert (Ht0 : tokens s = 0%nat).
    { destruct (tokens s) eqn:T; [ reflexivity | ].
      destruct (inv_done _ _ _ _ _ I) as [_ Hd]; lia. }
    constructor.
    + simpl. apply sameBoard_updateAt. apply (inv_board _ _ _ _ _ I).
    + apply (inv_secret _ _ _ _ _ I).
    + apply (inv_hash _ _ _ _ _ I).
    + simpl. rewrite length_app. simpl. lia.
    + cbn [canClick currentExpectedZ userPath afterClick]. intros Hs. rewrite Hs.
      rewrite length_app, Nat.add_1_r, Hz. apply rowZ_next.
    + rewrite tokens_afterClick, Ht0.
      destruct (isSafeTile tile && _); simpl; lia.
    + rewrite tokens_afterClick, Ht0. cbn [canClick userPath afterClick].
      destruct (isSafeTile tile) eqn:Hs; cbn [andb Nat.b2n]; [ | simpl; lia ].
      destruct (Qltb (Qabs (position_z tile - lastZ nRows)) (1 # 10)) eqn:Hl;
        [ | simpl; lia ].
      intros _. split; [ reflexivity | ].
      rewrite length_app, Nat.add_1_r. rewrite Hz in Hl.
      now apply last_tile_row.
  - unfold step. destruct (reloaded (dom s)); [ exact I | ].
    destruct (nth_error (pending s) k) as [t |] eqn:Hn; [ | exact I ].
    pose proof (runTask_game ext t (set_pending (removeAt k (pending s)) s)) as G.
    destruct G as ((G1 & G2 & G3 & G4 & G5) & G6 & G7). simpl in *.
    pose proof (tokens_runTask ext s k t Hn (inv_tokens _ _ _ _ _ I)) as T.
    constructor; rewrite ?G1, ?G3, ?G4, ?G5, ?G6, ?G7, ?T; apply I.
  - unfold step. destruct (reloaded (dom s)); [ exact I | ].
    pose proof (verifyAll_game value (verifyListeners (dom s)) s) as V.
    cbv zeta in V.
    destruct V as ((G1 & G2 & G3 & G4 & G5) & G6 & G7 & V1 & V2 & V3 & V4 & V5 & V6 & V7).
    set (s' := fold_left _ _ _) in *.
    assert (T : tokens s' = tokens s).
    { unfold tokens, uiActive. now rewrite V1, V3, V4, V5, V6. }
    constructor; rewrite ?G1, ?G3, ?G4, ?G5, ?G6, ?G7, ?T; apply I.
Qed.

Lemma Inv_run (ext : Externals) (nRows nCols : nat) (rnd : nat -> Q)
      (es : list Event) (s : State) :
  Inv ext nRows nCols rnd s -> Inv ext nRows nCols rnd (run ext nRows s es).
Proof. apply run_invariant. intros s0 e. apply Inv_step. Qed.

Lemma Inv_session (ext : Externals) (nRows nCols : nat) (rnd : nat -> Q)
      (es : list Event) :
  Inv ext nRows nCols rnd (session ext nRows nCols rnd es).
Proof. apply Inv_run, Inv_init. Qed.

(** ** Terminal states *)

Lemma locked_rejects (s : State) (hit : option nat) :
  canClick s = false -> accepted s hit = false.
Proof.
  intros H. unfold accepted. rewrite H. now rewrite andb_false_r.
Qed.

(** Once the lock is held and never released, the game is frozen. *)
Lemma locked_frozen (ext : Externals) (nRows : nat) (es : list Event) (s : State) :
  canClick s = false ->
  sameGame s (run ext nRows s es).
Proof.
  revert s. induction es as [| e es IH]; intros s H; simpl.
  - apply sameGame_refl.
  - assert (G : sameGame s (step ext nRows s e)).
    { apply step_frame. intros hit _. now apply locked_rejects. }
    eapply sameGame_trans; [ exact G | ]. apply IH.
    destruct G as (_ & _ & _ & G & _). congruence.
Qed.

Lemma done_rejects (ext : Externals) (nRows nCols : nat) (rnd : nat -> Q)
      (s : State) (hit : option nat) :
  Inv ext nRows nCols rnd s -> (1 <= tokens s)%nat -> accepted s hit = false.
Proof.
  intros I T. destruct (accepted s hit) eqn:A; [ | reflexivity ].
  destruct (accepted_tile s hit A) as (idx & tile & -> & Hn & _).
  destruct (accepted_row _ _ _ _ _ _ _ I A Hn) as [_ Hlt].
  destruct (inv_done _ _ _ _ _ I T) as [_ Hd]. lia.
Qed.

Lemma tokens_verifyAll (value : string) (s : State) :
  tokens (fold_left (fun s proofHash => verifyHandler proofHash value s)
                    (verifyListeners (dom s)) s) = tokens s.
Proof.
  pose proof (verifyAll_game value (verifyListeners (dom s)) s) as V.
  cbv zeta in V.
  destruct V as (_ & _ & _ & V1 & _ & V3 & V4 & V5 & V6 & _).
  unfold tokens, uiActive. now rewrite V1, V3, V4, V5, V6.
Qed.

Lemma tokens_step (ext : Externals) (nRows nCols : nat) (rnd : nat -> Q)
      (s : State) (e : Event) :
  Inv ext nRows nCols rnd s ->
  (tokens s <= tokens (step ext nRows s e))%nat.
Proof.
  intros I. destruct e as [hit | k | value].
  - destruct (accepted s hit) eqn:A; [ | rewrite step_rejected by assumption; lia ].
    destruct (accepted_tile s hit A) as (idx & tile & -> & Hn & _).
    rewrite (step_accepted ext nRows s idx tile A Hn), tokens_afterClick. lia.
  - unfold step. destruct (reloaded (dom s)); [ lia | ].
    destruct (nth_error (pending s) k) as [t |] eqn:Hn; [ | lia ].
    rewrite (tokens_runTask ext s k t Hn (inv_tokens _ _ _ _ _ I)). lia.
  - unfold step. destruct (reloaded (dom s)); [ lia | ].
    rewrite tokens_verifyAll. lia.
Qed.

(** Once the last safe tile has been clicked, the game is frozen. *)
Lemma done_frozen (ext : Externals) (nRows nCols : nat) (rnd : nat -> Q)
      (es : list Event) (s : State) :
  Inv ext nRows nCols rnd s -> (1 <= tokens s)%nat ->
  sameGame s (run ext nRows s es) /\
  Inv ext nRows nCols rnd (run ext nRows s es) /\
  (1 <= tokens (run ext nRows s es))%nat.
Proof.
  revert s. induction es as [| e es IH]; intros s I T; simpl.
  - split; [ apply sameGame_refl | auto ].
  - assert (G : sameGame s (step ext nRows s e)).
    { apply step_frame. intros hit _. eapply done_rejects; eassumption. }
    pose proof (Inv_step ext nRows nCols rnd s e I) as I'.
    pose proof (tokens_step ext nRows nCols rnd s e I) as T'.
    destruct (IH _ I' ltac:(lia)) as (G' & I'' & T'').
    split; [ eapply sameGame_trans; eassumption | auto ].
Qed.

(** ** Tile input *)

(** C3: in every state of a session, a click that lands outside every tile,
    or on a tile that is not in the expected row (its depth is not the
    expected depth), leaves the whole state as it was: user path, cursor,
    lock, tiles and everything else; so does any sequence of such clicks. *)
Theorem C3_ignored_clicks (ext : Externals) (nRows nCols : nat) (rnd : nat -> Q)
        (es : list Event) (hits : list (option nat)) :
  let s := session ext nRows nCols rnd es in
  Forall (missesExpectedRow s) hits ->
  run ext nRows s (map Click hits) = s.
Proof.
  intros s H. pose proof (Inv_session ext nRows nCols rnd es) as I.
  fold s in I. induction H as [| hit hits Hhit _ IH]; [ reflexivity | ].
  simpl. rewrite step_rejected; [ exact IH | ].
  destruct (accepted s hit) eqn:A; [ exfalso | reflexivity ].
  destruct (accepted_tile s hit A) as (idx & tile & -> & Hn & _ & Hc & _).
  destruct (accepted_row _ _ _ _ _ _ _ I A Hn) as [Hz _].
  apply (Hhit tile Hn). rewrite Hz. symmetry.
  apply (inv_cursor _ _ _ _ _ I Hc).
Qed.

Lemma C3_ignored_clicks_witness :
  run extExample numRows (session extExample numRows numCols rndExample [Click (Some 1%nat)])
      (map Click [None; Some 0%nat; Some 4%nat; Some 5%nat; Some 1%nat])
  = session extExample numRows numCols rndExample [Click (Some 1%nat)].
Proof.
  apply (C3_ignored_clicks extExample numRows numCols rndExample [Click (Some 1%nat)]).
  repeat constructor; intros tile H; vm_compute in H; injection H as <-;
    vm_compute; discriminate.
Defined.

(** C7: in every state of a session the user path is no longer than the
    number of rows; an accepted click appends exactly one element to it, and
    a rejected click or any other event leaves it as it was. *)
Theorem C7_userPath_growth (ext : Externals) (nRows nCols : nat) (rnd : nat -> Q)
        (es : list Event) :
  let s := session ext nRows nCols rnd es in
  (List.length (userPath s) <= nRows)%nat /\
  forall e,
    match e with
    | Click hit =>
        if accepted s hit
        then exists v, userPath (step ext nRows s e) = userPath s ++ [v]
        else userPath (step ext nRows s e) = userPath s
    | _ => userPath (step ext nRows s e) = userPath s
    end /\
    List.length (userPath (step ext nRows s e))
    = (List.length (userPath s)
       + match e with Click hit => Nat.b2n (accepted s hit) | _ => 0 end)%nat.
Proof.
  intros s. pose proof (Inv_session ext nRows nCols rnd es) as I. fold s in I.
  split; [ apply (inv_len _ _ _ _ _ I) | ].
  intros e. destruct e as [hit | k | value].
  - destruct (accepted s hit) eqn:A.
    + destruct (accepted_tile s hit A) as (idx & tile & -> & Hn & _).
      rewrite (step_accepted ext nRows s idx tile A Hn). simpl.
      split; [ now exists (directionOf tile) | ].
      rewrite length_app. reflexivity.
    + rewrite step_rejected by assumption. simpl. split; [ reflexivity | lia ].
  - assert (G : sameGame s (step ext nRows s (Resume k))).
    { apply step_frame. intros hit E. discriminate. }
    destruct G as (_ & _ & _ & _ & G). rewrite G. split; [ reflexivity | lia ].
  - assert (G : sameGame s (step ext nRows s (VerifyClick value))).
    { apply step_frame. intros hit E. discriminate. }
    destruct G as (_ & _ & _ & _ & G). rewrite G. split; [ reflexivity | lia ].
Qed.

Lemma directionOf_column (tile : Tile) :
  (colIndex tile < numCols)%nat ->
  position_x tile = nth_error tileOffsets (colIndex tile) ->
  directionOf tile = Z.of_nat (colIndex tile).
Proof.
  unfold directionOf, numCols. intros Hj Hx. rewrite Hx.
  destruct (colIndex tile) as [| [| j]]; [ reflexivity | reflexivity | lia ].
Qed.

(** C6: on the board of the script (two columns, any number of rows), the
    value an accepted click appends to the user path is the column index of
    the clicked tile, the one given to the tile at that place of [tiles]
    when the board was built. *)
Theorem C6_recorded_column (ext : Externals) (nRows : nat) (rnd : nat -> Q)
        (es : list Event) (idx : nat) (tile : Tile) :
  let s := session ext nRows numCols rnd es in
  accepted s (Some idx) = true ->
  nth_error (tiles s) idx = Some tile ->
  userPath (step ext nRows s (Click (Some idx)))
  = userPath s ++ [Z.of_nat (colIndex tile)] /\
  exists tile0,
    nth_error (buildTiles nRows numCols rnd) idx = Some tile0 /\
    colIndex tile0 = colIndex tile.
Proof.
  intros s A Hn. pose proof (Inv_session ext nRows numCols rnd es) as I. fold s in I.
  destruct (tile_geometry _ _ _ _ idx _ (inv_board _ _ _ _ _ I) Hn)
    as (i & j & Hi & Hj & Hn0 & Hz & Hc & Hx & Hb).
  rewrite (step_accepted ext nRows s idx tile A Hn). simpl. split.
  - rewrite directionOf_column; [ reflexivity | now rewrite Hc | now rewrite Hc ].
  - eexists. split; [ exact Hn0 | ]. simpl. now symmetry.
Qed.

Lemma C6_recorded_column_witness :
  userPath (step extExample numRows (session extExample numRows numCols rndExample [Click (Some 1%nat)])
                 (Click (Some 2%nat)))
  = [1%Z; 0%Z].
Proof.
  refine (proj1 (C6_recorded_column extExample numRows rndExample [Click (Some 1%nat)] 2
                   (mkTile 1 0 0) _ _)).
  - vm_compute. reflexivity.
  - vm_compute. reflexivity.
Defined.

(** C2: whenever the session awaits input, clicking a break tile of the
    expected row records the click, leaves the lock held and schedules the
    game-over notice; from then on no click is accepted and no event
    changes the user path, the cursor, the lock or any tile. *)
Theorem C2_break_tile_fails (ext : Externals) (nRows : nat) (s : State)
        (idx : nat) (tile : Tile) :
  reloaded (dom s) = false ->
  canClick s = true ->
  nth_error (tiles s) idx = Some tile ->
  (position_z tile == currentExpectedZ s)%Q ->
  break tile = true ->
  let s' := step ext nRows s (Click (Some idx)) in
  canClick s' = false /\
  In GameOverTimer (pending s') /\
  userPath s' = userPath s ++ [directionOf tile] /\
  forall es,
    let s'' := run ext nRows s' es in
    sameGame s' s'' /\ forall hit, accepted s'' hit = false.
Proof.
  intros Hr Hc Hn Hz Hb s'.
  assert (A : accepted s (Some idx) = true).
  { unfold accepted. rewrite Hr, Hc, Hn. cbn [negb andb].
    apply Qle_bool_iff, Qabs_Qle_condition. split; lra. }
  subst s'. rewrite (step_accepted ext nRows s idx tile A Hn).
  assert (Hs : isSafeTile tile = false) by (unfold isSafeTile; now rewrite Hb).
  assert (Hl : canClick (afterClick nRows idx tile s) = false) by exact Hs.
  split; [ exact Hl | ]. split.
  - unfold afterClick. cbn [pending]. rewrite Hs.
    apply in_or_app. right. now left.
  - split; [ reflexivity | ].
    intros es s''. pose proof (locked_frozen ext nRows es _ Hl) as G. fold s'' in G.
    split; [ exact G | ].
    intros hit. apply locked_rejects.
    destruct G as (_ & _ & _ & G & _). congruence.
Qed.

Lemma C2_break_tile_fails_witness :
  canClick (step extExample numRows (session extExample numRows numCols rndExample [Click (Some 1%nat)])
                 (Click (Some 3%nat))) = false.
Proof.
  refine (proj1 (C2_break_tile_fails extExample numRows
                   (session extExample numRows numCols rndExample [Click (Some 1%nat)])
                   3 (mkTile 1 1 0) _ _ _ _ _)).
  - vm_compute. reflexivity.
  - vm_compute. reflexivity.
  - vm_compute. reflexivity.
  - vm_compute. reflexivity.
  - vm_compute. reflexivity.
Defined.

Lemma rowZ_lt (i k : nat) : (i < k)%nat -> (rowZ k < rowZ i)%Q.
Proof.
  intros H. apply inject_nat_lt in H. unfold rowZ, tileSize, tileGapZ. lra.
Qed.

(** C10: when an accepted click on a safe tile of the last row completes
    the walk, the lock is free again and the victory is scheduled, yet the
    cursor lies beyond every tile of the board, so that from then on no
    click is accepted and no event changes the user path, the cursor, the
    lock or any tile. *)
Theorem C10_completed_guard_open (ext : Externals) (nRows nCols : nat)
        (rnd : nat -> Q) (es : list Event) (idx : nat) (tile : Tile) :
  let s := session ext nRows nCols rnd es in
  accepted s (Some idx) = true ->
  nth_error (tiles s) idx = Some tile ->
  break tile = false ->
  Qltb (Qabs (position_z tile - lastZ nRows)) (1 # 10) = true ->
  let s' := step ext nRows s (Click (Some idx)) in
  canClick s' = true /\
  In VictoryTimer (pending s') /\
  (forall t, In t (tiles s') -> (currentExpectedZ s' < position_z t)%Q) /\
  forall es',
    let s'' := run ext nRows s' es' in
    sameGame s' s'' /\ forall hit, accepted s'' hit = false.
Proof.
  intros s A Hn Hb Hl s'.
  pose proof (Inv_session ext nRows nCols rnd es) as I. fold s in I.
  pose proof (Inv_step ext nRows nCols rnd s (Click (Some idx)) I) as I'. fold s' in I'.
  assert (Hs : isSafeTile tile = true) by (unfold isSafeTile; now rewrite Hb).
  assert (E : s' = afterClick nRows idx tile s)
    by (apply step_accepted; assumption).
  assert (T : (1 <= tokens s')%nat).
  { rewrite E, tokens_afterClick, Hs, Hl. simpl. lia. }
  destruct (inv_done _ _ _ _ _ I' T) as [Hc Hlen].
  split; [ exact Hc | ]. split.
  - rewrite E. unfold afterClick. cbn [pending]. rewrite Hs, Hl.
    apply in_or_app. right. now left.
  - split.
    + intros t Ht. apply In_nth_error in Ht. destruct Ht as [n Ht].
      destruct (tile_geometry _ _ _ _ n _ (inv_board _ _ _ _ _ I') Ht)
        as (i & j & Hi & _ & _ & Hz & _).
      rewrite Hz, (inv_cursor _ _ _ _ _ I' Hc), Hlen. now apply rowZ_lt.
    + intros es' s''.
      destruct (done_frozen ext nRows nCols rnd es' s' I' T) as (G & I'' & T'').
      split; [ exact G | ].
      intros hit. eapply done_rejects; eassumption.
Qed.

Lemma C10_completed_guard_open_witness :
  canClick (step extExample numRows
                 (session extExample numRows numCols rndExample [Click (Some 1%nat); Click (Some 2%nat)])
                 (Click (Some 5%nat))) = true.
Proof.
  refine (proj1 (C10_completed_guard_open extExample numRows numCols rndExample
                   [Click (Some 1%nat); Click (Some 2%nat)] 5 (mkTile 2 1 1) _ _ _ _)).
  - vm_compute. reflexivity.
  - vm_compute. reflexivity.
  - vm_compute. reflexivity.
  - vm_compute. reflexivity.
Defined.

(** ** The lock and the transition *)

(** C4, as amended: an accepted click starts the camera transition and
    leaves the lock held only when the tile is a break tile; then no later
    click is accepted.  When the tile is safe the lock is free again as soon
    as the handler returns, the transition still being in flight, and a
    click on a tile of the new expected row is accepted.  In a session,
    every other click arriving then, outside the tiles or on a tile that is
    not of the expected row, is not accepted and leaves the whole state as
    it is. *)
Theorem C4_lock_scope (ext : Externals) (nRows : nat) (s : State)
        (idx : nat) (tile : Tile) :
  accepted s (Some idx) = true ->
  nth_error (tiles s) idx = Some tile ->
  let s' := step ext nRows s (Click (Some idx)) in
  In (CameraTween (position_z tile + 6)) (pending s') /\
  canClick s' = negb (break tile) /\
  (break tile = true ->
     forall es hit, accepted (run ext nRows s' es) hit = false) /\
  (break tile = false ->
     forall idx' tile',
       nth_error (tiles s') idx' = Some tile' ->
       (position_z tile' == currentExpectedZ s')%Q ->
       accepted s' (Some idx') = true) /\
  (forall nCols rnd es,
     s = session ext nRows nCols rnd es ->
     forall hit,
       missesExpectedRow s' hit ->
       accepted s' hit = false /\ step ext nRows s' (Click hit) = s').
Proof.
  intros A Hn s'.
  destruct (accepted_tile s _ A) as (_ & _ & _ & _ & Hr & _).
  assert (E : s' = afterClick nRows idx tile s) by (now apply step_accepted).
  split; [ | split; [ | split; [ | split ] ] ].
  - rewrite E. cbn [pending afterClick].
    apply in_or_app. left. apply in_or_app. right. now left.
  - now rewrite E.
  - intros Hb es hit. apply locked_rejects.
    assert (Hl : canClick s' = false)
      by (rewrite E; cbn [canClick afterClick]; unfold isSafeTile; now rewrite Hb).
    destruct (locked_frozen ext nRows es s' Hl) as (_ & _ & _ & G & _). congruence.
  - intros Hb idx' tile' Hn' Hz. unfold accepted. rewrite Hn'.
    replace (reloaded (dom s')) with false by (now rewrite E).
    replace (canClick s') with true
      by (rewrite E; cbn [canClick afterClick]; unfold isSafeTile; now rewrite Hb).
    cbn [negb andb]. apply Qle_bool_iff, Qabs_Qle_condition. split; lra.
  - intros nCols rnd es Hs hit Hm.
    assert (I : Inv ext nRows nCols rnd s')
      by (unfold s'; rewrite Hs; apply Inv_step, Inv_session).
    assert (R : accepted s' hit = false).
    { destruct (accepted s' hit) eqn:A'; [ exfalso | reflexivity ].
      destruct (accepted_tile s' hit A') as (idx' & tile' & -> & Hn' & _ & Hc & _).
      destruct (accepted_row _ _ _ _ _ _ _ I A' Hn') as [Hz _].
      apply (Hm tile' Hn'). rewrite Hz. symmetry.
      apply (inv_cursor _ _ _ _ _ I Hc). }
    split; [ exact R | now apply step_rejected ].
Qed.

Lemma C4_lock_scope_witness :
  accepted (step extExample numRows (init extExample numRows numCols rndExample) (Click (Some 1%nat)))
           (Some 2%nat) = true /\
  step extExample numRows
       (step extExample numRows (init extExample numRows numCols rndExample) (Click (Some 1%nat)))
       (Click (Some 4%nat))
  = step extExample numRows (init extExample numRows numCols rndExample) (Click (Some 1%nat)).
Proof.
  assert (A : accepted (init extExample numRows numCols rndExample) (Some 1%nat) = true)
    by (vm_compute; reflexivity).
  assert (Hn : nth_error (tiles (init extExample numRows numCols rndExample)) 1 = Some (mkTile 0 1 1))
    by (vm_compute; reflexivity).
  assert (Hb : break (mkTile 0 1 1) = false) by reflexivity.
  assert (Hn' : nth_error (tiles (step extExample numRows (init extExample numRows numCols rndExample)
                                       (Click (Some 1%nat)))) 2
                = Some (mkTile 1 0 0))
    by (vm_compute; reflexivity).
  assert (Hz : (position_z (mkTile 1 0 0)
                == currentExpectedZ (step extExample numRows (init extExample numRows numCols rndExample)
                                          (Click (Some 1%nat))))%Q)
    by (vm_compute; reflexivity).
  assert (Hm : missesExpectedRow
                 (step extExample numRows (init extExample numRows numCols rndExample)
                       (Click (Some 1%nat)))
                 (Some 4%nat)).
  { intros tile H. vm_compute in H. injection H as <-. vm_compute. discriminate. }
  pose proof (C4_lock_scope extExample numRows (init extExample numRows numCols rndExample)
                1 (mkTile 0 1 1) A Hn) as T.
  cbv zeta in T. destruct T as (_ & _ & _ & T4 & T5).
  split.
  - exact (T4 Hb 2%nat (mkTile 1 0 0) Hn' Hz).
  - exact (proj2 (T5 numCols rndExample [] eq_refl (Some 4%nat) Hm)).
Defined.

(** C4, as stated, fails: on the sample board the safe tile of the first row
    is clicked; the camera tween this starts is still in flight, yet the
    lock is already free, and a click on the safe tile of the second row is
    accepted and recorded. *)
Lemma C4_click_during_transition :
  let s1 := session extExample numRows numCols rndExample [Click (Some 1%nat)] in
  let s2 := step extExample numRows s1 (Click (Some 2%nat)) in
  pending s1 = [CameraTween (rowZ 0 + 6)] /\
  canClick s1 = true /\
  accepted s1 (Some 2%nat) = true /\
  userPath s1 = [1%Z] /\
  userPath s2 = [1%Z; 0%Z] /\
  In (CameraTween (rowZ 0 + 6)) (pending s2).
Proof.
  vm_compute. repeat split; try reflexivity. now left.
Qed.

(** ** Walking the safe path *)

Lemma rowZ_inj (i k : nat) : rowZ i = rowZ k -> i = k.
Proof.
  intros H. apply (rowZ_close i k (rowZ k)); [ reflexivity | ].
  rewrite H. apply Qabs_Qle_condition. split; lra.
Qed.

Lemma last_tile_test (nRows a : nat) :
  S a = nRows -> Qltb (Qabs (rowZ a - lastZ nRows)) (1 # 10) = true.
Proof.
  intros <-. unfold Qltb. apply negb_true_iff.
  destruct (Qle_bool (1 # 10) (Qabs (rowZ a - lastZ (S a)))) eqn:E; [ | reflexivity ].
  apply Qle_bool_iff in E. exfalso.
  assert (H : (Qabs (rowZ a - lastZ (S a)) <= 0)%Q).
  { apply Qabs_Qle_condition. pose proof (lastZ_rowZ a). split; lra. }
  lra.
Qed.

Lemma buildSecretPath_S (a nCols : nat) (rnd : nat -> Q) :
  buildSecretPath (S a) nCols rnd
  = buildSecretPath a nCols rnd ++ [safeIndexOf nCols (rnd a)].
Proof.
  unfold buildSecretPath. rewrite seq_S, map_app. reflexivity.
Qed.

Lemma buildSecretPath_length (a nCols : nat) (rnd : nat -> Q) :
  List.length (buildSecretPath a nCols rnd) = a.
Proof. unfold buildSecretPath. now rewrite length_map, length_seq. Qed.

Lemma walked_init (ext : Externals) (nRows : nat) (rnd : nat -> Q) :
  walked ext nRows numCols rnd 0 (init ext nRows numCols rnd).
Proof.
  unfold walked. split; [ apply Inv_init | ].
  repeat split. exists []. split; [ constructor | reflexivity ].
Qed.

(** One more row walked. *)
Lemma walked_step (ext : Externals) (nRows : nat) (rnd : nat -> Q)
      (a idx : nat) (s : State) :
  walked ext nRows numCols rnd a s ->
  (a < nRows)%nat ->
  safeTileOfRow nRows numCols rnd a idx ->
  walked ext nRows numCols rnd (S a) (step ext nRows s (Click (Some idx))).
Proof.
  intros (I & Hd & Hc & Hu & Hcalls & tweens & Htw & Hp) Ha (t0 & Hn0 & Hz0 & Hb0).
  assert (Hr : reloaded (dom s) = false) by now rewrite Hd.
  assert (Hsym : sameBoard (buildTiles nRows numCols rnd) (tiles s)).
  { unfold sameBoard. symmetry. apply (inv_board _ _ _ _ _ I). }
  destruct (sameBoard_nth _ _ idx _ Hsym Hn0) as (tile & Hn & He).
  unfold eraseColor, setColor in He. injection He as Hx Hz Hcol Hb.
  rewrite Hz0 in Hz. rewrite Hb0 in Hb.
  destruct (tile_geometry _ _ _ _ idx _ (inv_board _ _ _ _ _ I) Hn)
    as (i & j & Hi & Hj & _ & Hzi & Hcj & Hxj & Hbj).
  assert (i = a) by (apply rowZ_inj; congruence). subst i.
  assert (Hlu : List.length (userPath s) = a)
    by (rewrite Hu; apply buildSecretPath_length).
  assert (A : accepted s (Some idx) = true).
  { unfold accepted. rewrite Hr, Hc, Hn. cbn [negb andb].
    apply Qle_bool_iff, Qabs_Qle_condition.
    pose proof (inv_cursor _ _ _ _ _ I Hc) as Hcur. rewrite Hlu in Hcur.
    rewrite Hz. split; lra. }
  pose proof (Inv_step ext nRows numCols rnd s (Click (Some idx)) I) as I'.
  rewrite (step_accepted ext nRows s idx tile A Hn) in *.
  assert (Hs : isSafeTile tile = true) by (unfold isSafeTile; now rewrite Hb).
  split; [ exact I' | ].
  split; [ exact Hd | ].
  split; [ exact Hs | ].
  split.
  - cbn [userPath afterClick]. rewrite buildSecretPath_S, Hu. do 2 f_equal.
    rewrite directionOf_column by (rewrite ?Hcj; assumption).
    rewrite Hcj. rewrite Hb in Hbj. symmetry in Hbj.
    apply negb_false_iff in Hbj. now apply Z.eqb_eq.
  - split; [ exact Hcalls | ].
    exists (tweens ++ [CameraTween (position_z tile + 6)]).
    split; [ apply Forall_app; split; [ exact Htw | now repeat constructor ] | ].
    cbn [pending afterClick]. rewrite Hs, Hp, Hz.
    replace ((0 <? a)%nat && (a =? nRows)%nat) with false
      by (symmetry; apply andb_false_iff; right; apply Nat.eqb_neq; lia).
    rewrite app_nil_r. f_equal. cbn [Nat.ltb Nat.leb andb].
    destruct (Nat.eqb_spec (S a) nRows) as [E | E].
    + now rewrite last_tile_test.
    + destruct (Qltb (Qabs (rowZ a - lastZ nRows)) (1 # 10)) eqn:L; [ | reflexivity ].
      exfalso. apply E. now apply last_tile_row.
Qed.

Lemma Forall_removeAt (A : Type) (P : A -> Prop) (k : nat) (l : list A) :
  Forall P l -> Forall P (removeAt k l).
Proof.
  intros H. revert k. induction H as [| a l Ha Hl IH]; intros [| k]; simpl; auto.
Qed.

(** Before the last row is walked, the events that are not clicks only
    retire camera tweens. *)
Lemma walked_idle (ext : Externals) (nRows : nat) (rnd : nat -> Q)
      (a : nat) (s : State) (e : Event) :
  walked ext nRows numCols rnd a s ->
  (a < nRows)%nat ->
  isIdle e ->
  walked ext nRows numCols rnd a (step ext nRows s e).
Proof.
  intros (I & Hd & Hc & Hu & Hcalls & tweens & Htw & Hp) Ha He.
  unfold walked.
  replace ((0 <? a)%nat && (a =? nRows)%nat) with false in *
    by (symmetry; apply andb_false_iff; right; apply Nat.eqb_neq; lia).
  rewrite app_nil_r in Hp.
  pose proof (Inv_step ext nRows numCols rnd s e I) as I'.
  destruct e as [hit | k | value]; [ destruct He | | ].
  - unfold step in *. rewrite Hd in *. cbn [reloaded emptyDom] in *.
    destruct (nth_error (pending s) k) as [t |] eqn:Hn.
    + assert (Ht : isCameraTween t = true).
      { rewrite Hp in Hn. apply nth_error_In in Hn.
        rewrite Forall_forall in Htw. now apply Htw. }
      destruct t; try discriminate. cbn [runTask] in *.
      split; [ exact I' | ]. repeat (split; [ assumption | ]).
      exists (removeAt k tweens). split; [ now apply Forall_removeAt | ].
      cbn. now rewrite Hp, app_nil_r.
    + split; [ exact I | ]. repeat (split; [ assumption | ]).
      exists tweens. now rewrite app_nil_r.
  - unfold step in *. rewrite Hd in *. cbn [reloaded verifyListeners emptyDom fold_left] in *.
    split; [ exact I | ]. repeat (split; [ assumption | ]).
    exists tweens. now rewrite app_nil_r.
Qed.

Lemma walked_idles (ext : Externals) (nRows : nat) (rnd : nat -> Q)
      (a : nat) (idle : list Event) (s : State) :
  walked ext nRows numCols rnd a s ->
  (a < nRows)%nat ->
  Forall isIdle idle ->
  walked ext nRows numCols rnd a (run ext nRows s idle).
Proof.
  intros W Ha F. revert s W. induction F as [| e idle He _ IH]; intros s W.
  - exact W.
  - simpl. apply IH. now apply walked_idle.
Qed.

Lemma walked_run (ext : Externals) (nRows : nat) (rnd : nat -> Q)
      (n a : nat) (steps : list (list Event * nat)) (s : State) :
  walked ext nRows numCols rnd a s ->
  (a + n <= nRows)%nat ->
  Forall (fun st => Forall isIdle (fst st)) steps ->
  Forall2 (safeTileOfRow nRows numCols rnd) (seq a n) (map snd steps) ->
  walked ext nRows numCols rnd (a + n) (run ext nRows s (walkEvents steps)).
Proof.
  revert a steps s. induction n as [| n IH]; intros a steps s W Hle Hidle F.
  - destruct steps; [ | inversion F ]. simpl. now rewrite Nat.add_0_r.
  - destruct steps as [| [idle idx] steps]; [ inversion F | ].
    simpl in F. inversion F as [| i idx' l idxs' Hsafe F' ]; subst.
    inversion Hidle as [| st sts Hi Hidle' ]; subst. simpl in Hi.
    unfold walkEvents. cbn [flat_map fst snd].
    rewrite <- app_assoc, run_app. cbn [app]. unfold run at 1. cbn [fold_left].
    rewrite <- Nat.add_succ_comm. apply IH; [ | lia | exact Hidle' | exact F' ].
    apply walked_step; [ | lia | exact Hsafe ].
    apply walked_idles; [ exact W | lia | exact Hi ].
Qed.

(** ** The proof pipeline *)

Lemma nth_error_last (A : Type) (l : list A) (x : A) :
  nth_error (l ++ [x]) (List.length l) = Some x.
Proof. induction l as [| a l IH]; simpl; auto. Qed.

Lemma removeAt_last (A : Type) (l : list A) (x : A) :
  removeAt (List.length l) (l ++ [x]) = l.
Proof. induction l as [| a l IH]; simpl; [ reflexivity | now rewrite IH ]. Qed.

(** Resuming the task that was deferred last. *)
Lemma step_resume_last (ext : Externals) (nRows : nat) (s : State)
      (ts : list Task) (t : Task) (k : nat) :
  reloaded (dom s) = false ->
  pending s = ts ++ [t] ->
  List.length ts = k ->
  step ext nRows s (Resume k) = runTask ext t (set_pending ts s).
Proof.
  intros Hr Hp <-. unfold step. rewrite Hr, Hp, nth_error_last, removeAt_last.
  reflexivity.
Qed.

(** After the walk, every witness execution is given the inputs made of the
    secret path, the user path and the commitment. *)
Lemma executed_inputs (ext : Externals) (nRows nCols : nat) (rnd : nat -> Q)
      (es : list Event) (s : State) :
  let path := buildSecretPath nRows nCols rnd in
  let inputs := proofInput path path (poseidon2Hash ext path) in
  Inv ext nRows nCols rnd s -> (1 <= tokens s)%nat ->
  userPath s = path ->
  Forall (executedWith inputs) (calls s) ->
  Forall (executedWith inputs) (calls (run ext nRows s es)).
Proof.
  intros path inputs I T U C.
  set (P := fun s => Inv ext nRows nCols rnd s /\ (1 <= tokens s)%nat /\
                     userPath s = path /\ Forall (executedWith inputs) (calls s)).
  assert (H : P (run ext nRows s es)).
  { apply run_invariant; [ | unfold P; auto ].
    clear. intros s e (I & T & U & C).
    pose proof (Inv_step ext nRows nCols rnd s e I) as I'.
    pose proof (tokens_step ext nRows nCols rnd s e I) as T'.
    assert (G : sameGame s (step ext nRows s e)).
    { apply step_frame. intros hit _. eapply done_rejects; eassumption. }
    split; [ exact I' | ]. split; [ lia | ].
    split; [ destruct G as (_ & _ & _ & _ & G); congruence | ].
    destruct e as [hit | k | value].
    - rewrite step_rejected; [ exact C | eapply done_rejects; eassumption ].
    - unfold step. destruct (reloaded (dom s)); [ exact C | ].
      destruct (nth_error (pending s) k) as [t |]; [ | exact C ].
      assert (N : noirInputs (set_pending (removeAt k (pending s)) s) = inputs).
      { unfold noirInputs, inputs, proofInput. cbn [secretPath userPath publicHash set_pending].
        now rewrite (inv_secret _ _ _ _ _ I), (inv_hash _ _ _ _ _ I), U. }
      destruct t; cbn [runTask];
        try destruct (getCircuit ext);
        try destruct (noir_execute ext program inputs0);
        try destruct (generateProof ext program witness);
        try destruct (digest ext proof);
        cbn; try exact C;
        apply Forall_app; (split; [ exact C | ]); repeat constructor.
      exact N.
    - unfold step. destruct (reloaded (dom s)); [ exact C | ].
      pose proof (verifyAll_game value (verifyListeners (dom s)) s) as V.
      cbv zeta in V. destruct V as (_ & _ & _ & _ & V & _). now rewrite V. }
  apply H.
Qed.

(** C1: on the board of the script (two columns, at least one row), a player
    who clicks a safe tile of every row, front to back, while timers, tweens
    and verify clicks may come in between, completes the walk: with the last
    click the victory is scheduled, the user path equals the secret path
    element by element, and the proof pipeline is given exactly the secret
    path, the user path and the commitment computed at load time.  Whatever
    happens next, no witness execution gets other inputs; and when the
    victory timer, the victory tween and the compilation have run, the
    compilation not throwing, the execution has been called with them. *)
Theorem C1_safe_walk_completes (ext : Externals) (nRows : nat) (rnd : nat -> Q)
        (steps : list (list Event * nat)) :
  (1 <= nRows)%nat ->
  Forall (fun st => Forall isIdle (fst st)) steps ->
  safeWalk nRows numCols rnd (map snd steps) ->
  let s0 := init ext nRows numCols rnd in
  let s1 := run ext nRows s0 (walkEvents steps) in
  let inputs := proofInput (secretPath s0) (userPath s1) (publicHash s0) in
  let k := (List.length (pending s1) - 1)%nat in
  In VictoryTimer (pending s1) /\
  secretPath s1 = secretPath s0 /\
  userPath s1 = secretPath s1 /\
  List.length (userPath s1) = nRows /\
  publicHash s0 = poseidon2Hash ext (secretPath s0) /\
  (forall es program inp,
      In (CallExecute program inp) (calls (run ext nRows s1 es)) -> inp = inputs) /\
  (forall program,
      getCircuit ext = Ok program ->
      In (CallExecute program inputs)
         (calls (run ext nRows s1 [Resume k; Resume k; Resume k]))).
Proof.
  intros Hn Hidle F s0 s1 inputs k.
  pose proof (walked_run ext nRows rnd nRows 0 steps s0
                (walked_init ext nRows rnd) (le_n _) Hidle F) as W.
  fold s1 in W. simpl in W.
  destruct W as (I & Hd & Hc & Hu & Hcalls & tweens & Htw & Hp).
  assert (Hr : reloaded (dom s1) = false) by now rewrite Hd.
  replace ((0 <? nRows)%nat && (nRows =? nRows)%nat) with true in Hp
    by (symmetry; apply andb_true_iff; split;
        [ apply Nat.ltb_lt; lia | apply Nat.eqb_refl ]).
  assert (Hlen : List.length tweens = k).
  { unfold k. rewrite Hp, length_app. simpl. lia. }
  assert (Hs : secretPath s1 = secretPath s0) by apply (inv_secret _ _ _ _ _ I).
  assert (Hin : inputs = proofInput (buildSecretPath nRows numCols rnd)
                                    (buildSecretPath nRows numCols rnd)
                                    (poseidon2Hash ext (buildSecretPath nRows numCols rnd))).
  { unfold inputs. now rewrite Hu. }
  assert (T : (1 <= tokens s1)%nat).
  { unfold tokens. rewrite Hp, filter_app, length_app. simpl. lia. }
  split; [ rewrite Hp; apply in_or_app; right; now left | ].
  split; [ exact Hs | ].
  split; [ now rewrite Hs, Hu | ].
  split; [ rewrite Hu; apply buildSecretPath_length | ].
  split; [ reflexivity | ].
  split.
  - intros es program inp Hcall.
    assert (C : Forall (executedWith inputs) (calls s1))
      by (rewrite Hcalls; constructor).
    rewrite Hin in C |- *.
    pose proof (executed_inputs ext nRows numCols rnd es s1 I T Hu C) as E.
    cbv zeta in E. rewrite Forall_forall in E. apply (E _ Hcall).
  - intros program Hg. clearbody k. unfold run. cbn [fold_left].
    rewrite (step_resume_last ext nRows s1 tweens VictoryTimer k Hr Hp Hlen).
    cbn [runTask].
    set (sa := defer VictoryTween (set_pending tweens s1)).
    rewrite (step_resume_last ext nRows sa tweens VictoryTween k Hr eq_refl Hlen).
    cbn [runTask].
    set (sb := defer AwaitCircuit
                     (logCall CallGetCircuit (showVictoryText (set_pending tweens sa)))).
    rewrite (step_resume_last ext nRows sb tweens AwaitCircuit k Hr eq_refl Hlen).
    cbn [runTask]. rewrite Hg. cbn [calls defer logCall set_calls set_pending].
    apply in_or_app. right. left. f_equal.
    change (noirInputs (set_pending tweens sb)) with (noirInputs s1).
    unfold noirInputs, inputs, proofInput.
    rewrite Hs, (inv_hash _ _ _ _ _ I). reflexivity.
Qed.

Lemma C1_safe_walk_completes_witness :
  let s1 := run extExample numRows (init extExample numRows numCols rndExample)
                (walkEvents [([], 1); ([Resume 0], 2); ([VerifyClick "0x00"], 5)]%nat) in
  userPath s1 = secretPath s1 /\
  In (CallExecute "bytecode"%string
        (proofInput (secretPath (init extExample numRows numCols rndExample)) (userPath s1)
                    (publicHash (init extExample numRows numCols rndExample))))
     (calls (run extExample numRows s1
                 [Resume (List.length (pending s1) - 1);
                  Resume (List.length (pending s1) - 1);
                  Resume (List.length (pending s1) - 1)])).
Proof.
  assert (Hn : (1 <= numRows)%nat) by (unfold numRows; lia).
  assert (Hidle : Forall (fun st : list Event * nat => Forall isIdle (fst st))
                         [([], 1); ([Resume 0], 2); ([VerifyClick "0x00"], 5)]%nat)
    by (repeat constructor).
  assert (F : safeWalk numRows numCols rndExample
                (map snd [([], 1); ([Resume 0], 2); ([VerifyClick "0x00"], 5)]%nat)).
  { repeat constructor; eexists; (split; [ vm_compute; reflexivity | ]);
      split; reflexivity. }
  pose proof (C1_safe_walk_completes extExample numRows rndExample _ Hn Hidle F) as H.
  cbv zeta in H |- *. destruct H as (_ & _ & Hu & _ & _ & _ & Hcall).
  split.
  - exact Hu.
  - exact (Hcall "bytecode"%string eq_refl).
Defined.

(** The console never loses an entry. *)
Lemma console_step (ext : Externals) (nRows : nat) (s : State) (e : Event) :
  (List.length (console (dom s))
   <= List.length (console (dom (step ext nRows s e))))%nat.
Proof.
  destruct e as [hit | k | value].
  - destruct (accepted s hit) eqn:A; [ | rewrite step_rejected by assumption; lia ].
    destruct (accepted_tile s hit A) as (idx & tile & -> & Hn & _).
    rewrite (step_accepted ext nRows s idx tile A Hn). simpl. lia.
  - unfold step. destruct (reloaded (dom s)); [ lia | ].
    destruct (nth_error (pending s) k) as [t |]; [ | lia ].
    destruct t; cbn [runTask];
      try destruct (getCircuit ext);
      try destruct (noir_execute ext program inputs);
      try destruct (generateProof ext program witness);
      try destruct (digest ext proof);
      cbn; rewrite ?length_app; simpl; lia.
  - unfold step. destruct (reloaded (dom s)); [ lia | ].
    pose proof (verifyAll_game value (verifyListeners (dom s)) s) as V.
    cbv zeta in V. destruct V as (_ & _ & _ & _ & _ & V & _). rewrite V. lia.
Qed.

(** Once an error has been logged, the success UI stays off. *)
Lemma logged_error_no_ui (ext : Externals) (nRows nCols : nat) (rnd : nat -> Q)
      (es : list Event) (s : State) :
  Inv ext nRows nCols rnd s ->
  (1 <= List.length (console (dom s)))%nat ->
  uiActive (dom (run ext nRows s es)) = false.
Proof.
  intros I C.
  set (P := fun s => Inv ext nRows nCols rnd s /\
                     (1 <= List.length (console (dom s)))%nat).
  assert (H : P (run ext nRows s es)).
  { apply run_invariant; [ | unfold P; auto ].
    clear. intros s e (I & C). split; [ now apply Inv_step | ].
    pose proof (console_step ext nRows s e). lia. }
  destruct H as (I' & C'). pose proof (inv_tokens _ _ _ _ _ I') as T.
  unfold tokens in T.
  destruct (uiActive (dom (run ext nRows s es))); [ simpl in T; lia | reflexivity ].
Qed.

(** C9: in a session, when the external call a pipeline continuation waits
    for (compilation, witness execution, proof generation or digest) throws,
    the error is logged on the console and nothing else on the page changes:
    no alert, no digest, no copy buttons, no verify listener; the pipeline
    is abandoned without a further call, and whatever happens afterwards
    the success UI is never activated. *)
Theorem C9_pipeline_failure (ext : Externals) (nRows nCols : nat) (rnd : nat -> Q)
        (es : list Event) (k : nat) (t : Task) (e : string) :
  let s := session ext nRows nCols rnd es in
  reloaded (dom s) = false ->
  nth_error (pending s) k = Some t ->
  throws ext t e ->
  let s' := step ext nRows s (Resume k) in
  dom s' = {| alerts := alerts (dom s);
              console := console (dom s) ++ [e];
              victoryText := victoryText (dom s);
              proofHashValue := None;
              copyButtons := false;
              verifyListeners := [];
              verifyResult := verifyResult (dom s);
              reloaded := false |} /\
  pending s' = removeAt k (pending s) /\
  calls s' = calls s /\
  forall es', uiActive (dom (run ext nRows s' es')) = false.
Proof.
  intros s Hr Hn Ht s'.
  pose proof (Inv_session ext nRows nCols rnd es) as I. fold s in I.
  pose proof (Inv_step ext nRows nCols rnd s (Resume k) I) as I'. fold s' in I'.
  assert (Hv : isVictoryTask t = true) by (destruct t; simpl in Ht; tauto).
  assert (Hui : uiActive (dom s) = false).
  { pose proof (inv_tokens _ _ _ _ _ I) as T. unfold tokens in T.
    rewrite (filter_removeAt _ isVictoryTask _ _ _ Hn), Hv in T.
    destruct (uiActive (dom s)); [ simpl in T; lia | reflexivity ]. }
  unfold uiActive in Hui.
  destruct (proofHashValue (dom s)) eqn:E1; [ discriminate | ].
  destruct (copyButtons (dom s)) eqn:E2; [ discriminate | ].
  destruct (verifyListeners (dom s)) eqn:E3; [ | discriminate ].
  assert (E : s' = console_error e (set_pending (removeAt k (pending s)) s)).
  { subst s'. unfold step. rewrite Hr, Hn.
    destruct t; simpl in Ht; try tauto; cbn [runTask]; now rewrite Ht. }
  split; [ rewrite E; cbn; now rewrite E1, E2, E3, Hr | ].
  split; [ now rewrite E | ].
  split; [ now rewrite E | ].
  intros es'. apply (logged_error_no_ui ext nRows nCols rnd es' s' I').
  rewrite E. cbn. rewrite length_app. simpl. lia.
Qed.

Lemma C9_pipeline_failure_witness :
  let s := session extFailing numRows numCols rndExample
             [Click (Some 1%nat); Click (Some 2%nat); Click (Some 5%nat);
              Resume 3; Resume 3] in
  pending (step extFailing numRows s (Resume 3)) = removeAt 3 (pending s) /\
  uiActive (dom (run extFailing numRows (step extFailing numRows s (Resume 3)) [])) = false.
Proof.
  intros s.
  assert (Hr : reloaded (dom s) = false) by (vm_compute; reflexivity).
  assert (Hn : nth_error (pending s) 3 = Some AwaitCircuit) by (vm_compute; reflexivity).
  assert (Ht : throws extFailing AwaitCircuit "compile error") by reflexivity.
  pose proof (C9_pipeline_failure extFailing numRows numCols rndExample
                [Click (Some 1%nat); Click (Some 2%nat); Click (Some 5%nat);
                 Resume 3; Resume 3]
                3 AwaitCircuit "compile error"%string Hr Hn Ht) as H.
  cbv zeta in H. destruct H as (_ & Hp & _ & Hui).
  split.
  - exact Hp.
  - exact (Hui []).
Defined.

(** ** Digest verification *)

Lemma allAscii_In (a : ascii) : In a allAscii.
Proof.
  unfold allAscii. apply in_map_iff. exists (nat_of_ascii a).
  split; [ apply ascii_nat_embedding | ].
  apply in_seq. pose proof (nat_ascii_bounded a). lia.
Qed.

Lemma lowerChar_sameLetter (a b : ascii) :
  Ascii.eqb (lowerChar a) (lowerChar b) = sameLetter a b.
Proof.
  assert (H : forallb (fun x =>
                forallb (fun y =>
                  Bool.eqb (Ascii.eqb (lowerChar x) (lowerChar y)) (sameLetter x y))
                  allAscii) allAscii = true) by (vm_compute; reflexivity).
  rewrite forallb_forall in H. specialize (H a (allAscii_In a)).
  rewrite forallb_forall in H. specialize (H b (allAscii_In b)).
  now apply eqb_prop in H.
Qed.

(** Comparing the lower-case forms is comparing up to letter case. *)
Lemma toLowerCase_equalUpToCase (s t : string) :
  String.eqb (toLowerCase s) (toLowerCase t) = equalUpToCase s t.
Proof.
  revert t. induction s as [| a s IH]; intros [| b t]; simpl; try reflexivity.
  rewrite lowerChar_sameLetter, IH.
  destruct (sameLetter a b); reflexivity.
Qed.

Lemma listenerOfDisplay_session (ext : Externals) (nRows nCols : nat)
      (rnd : nat -> Q) (es : list Event) :
  listenerOfDisplay (session ext nRows nCols rnd es).
Proof.
  set (P := fun s => Inv ext nRows nCols rnd s /\ listenerOfDisplay s).
  assert (H : P (session ext nRows nCols rnd es)).
  { unfold session.
    apply run_invariant; [ | split; [ apply Inv_init | reflexivity ] ].
    clear. intros s e (I & L). split; [ now apply Inv_step | ].
    unfold listenerOfDisplay in *.
    destruct e as [hit | k | value].
    - destruct (accepted s hit) eqn:A; [ | now rewrite step_rejected ].
      destruct (accepted_tile s hit A) as (idx & tile & -> & Hn & _).
      rewrite (step_accepted ext nRows s idx tile A Hn). exact L.
    - unfold step. destruct (reloaded (dom s)); [ exact L | ].
      destruct (nth_error (pending s) k) as [t |] eqn:Hn; [ | exact L ].
      pose proof (inv_tokens _ _ _ _ _ I) as T. unfold tokens in T.
      rewrite (filter_removeAt _ isVictoryTask _ _ _ Hn) in T.
      destruct t; cbn [runTask];
        try destruct (getCircuit ext);
        try destruct (noir_execute ext program inputs);
        try destruct (generateProof ext program witness);
        try destruct (digest ext proof);
        cbn; try exact L.
      all: unfold uiActive in T; simpl in T.
      all: destruct (proofHashValue (dom s)); [ simpl in T; lia | ].
      all: destruct (copyButtons (dom s)); [ simpl in T; lia | ].
      all: destruct (verifyListeners (dom s)); [ reflexivity | simpl in T; lia ].
    - unfold step. destruct (reloaded (dom s)); [ exact L | ].
      pose proof (verifyAll_game value (verifyListeners (dom s)) s) as V.
      cbv zeta in V. destruct V as (_ & _ & _ & _ & _ & _ & V1 & _ & V2 & _).
      now rewrite V1, V2. }
  apply H.
Qed.

(** C8, as amended: in a session whose proof digest is on display, a click
    on the verify button first trims the pasted text, any text of code
    units below 256: the white space of JavaScript there, the no-break
    space included, is removed at both ends.  If nothing is left, the
    player is asked to paste the hash and the verdict on the page stays as
    it was.  Otherwise the verdict is "valid" when the trimmed text equals
    the displayed digest up to letter case, and "invalid" when it does
    not, and no alert is raised. *)
Theorem C8_verify_trimmed (ext : Externals) (nRows nCols : nat) (rnd : nat -> Q)
        (es : list Event) (shown value : string) :
  let s := session ext nRows nCols rnd es in
  reloaded (dom s) = false ->
  proofHashValue (dom s) = Some shown ->
  let s' := step ext nRows s (VerifyClick value) in
  (trim value = ""%string ->
     verifyResult (dom s') = verifyResult (dom s) /\
     alerts (dom s') = alerts (dom s) ++ [pasteFirst]) /\
  (trim value <> ""%string ->
     alerts (dom s') = alerts (dom s) /\
     (equalUpToCase (trim value) shown = true ->
        verifyResult (dom s') = Some validHtml) /\
     (equalUpToCase (trim value) shown = false ->
        verifyResult (dom s') = Some invalidHtml)).
Proof.
  intros s Hr Hd s'.
  pose proof (listenerOfDisplay_session ext nRows nCols rnd es) as L.
  fold s in L. unfold listenerOfDisplay in L. rewrite Hd in L.
  assert (E : s' = verifyHandler shown value s).
  { subst s'. unfold step. rewrite Hr, L. reflexivity. }
  rewrite E. unfold verifyHandler. rewrite toLowerCase_equalUpToCase.
  split.
  - intros Ht. rewrite Ht. simpl. auto.
  - intros Ht. apply String.eqb_neq in Ht. rewrite Ht.
    split; [ reflexivity | ].
    split; intros ->; reflexivity.
Qed.

Lemma C8_verify_trimmed_witness :
  verifyResult (dom (step extExample numRows (session extExample numRows numCols rndExample wonEvents)
                          (VerifyClick (String nbsp " 0XAB05 "))))
  = Some validHtml.
Proof.
  assert (Hr : reloaded (dom (session extExample numRows numCols rndExample wonEvents)) = false)
    by (vm_compute; reflexivity).
  assert (Hd : proofHashValue (dom (session extExample numRows numCols rndExample wonEvents))
               = Some "0xab05"%string)
    by (vm_compute; reflexivity).
  assert (Ht : trim (String nbsp " 0XAB05 ") <> ""%string) by (vm_compute; discriminate).
  assert (He : equalUpToCase (trim (String nbsp " 0XAB05 ")) "0xab05" = true)
    by (vm_compute; reflexivity).
  exact (proj1 (proj2 (proj2 (C8_verify_trimmed extExample numRows numCols rndExample wonEvents
                                "0xab05" (String nbsp " 0XAB05 ") Hr Hd) Ht)) He).
Defined.

(** C8, as stated, fails: with the digest 0xab05 on display, the empty text
    is not the digest up to letter case and yet is not answered "invalid"
    (the verdict stays empty and an alert asks for the hash); and the
    digest with a space in front is not the digest up to letter case and
    yet is answered "valid". *)
Lemma C8_verify_counterexample :
  proofHashValue (dom wonExample) = Some "0xab05"%string /\
  equalUpToCase "" "0xab05" = false /\
  verifyResult (dom (step extExample numRows wonExample (VerifyClick ""))) = None /\
  alerts (dom (step extExample numRows wonExample (VerifyClick ""))) = [pasteFirst] /\
  equalUpToCase " 0xab05" "0xab05" = false /\
  verifyResult (dom (step extExample numRows wonExample (VerifyClick " 0xab05")))
  = Some validHtml.
Proof.
  vm_compute. repeat split; reflexivity.
Qed.

(** ** Hex utilities *)

Lemma concat_cons (x : string) (xs : list string) :
  String.concat "" (x :: xs) = (x ++ String.concat "" xs)%string.
Proof.
  destruct xs as [| y ys]; simpl.
  - induction x as [| c x IH]; simpl; [ reflexivity | now rewrite <- IH ].
  - reflexivity.
Qed.

Lemma substring_all (s : string) : substring 0 (String.length s) s = s.
Proof. induction s as [| c s IH]; simpl; [ reflexivity | now rewrite IH ]. Qed.

Lemma prefix_0x (s : string) : String.prefix "0x" ("0x" ++ s) = true.
Proof. simpl. destruct s; reflexivity. Qed.

Lemma byte_cases (P : Z -> Prop) :
  (forall n, In n (seq 0 256) -> P (Z.of_nat n)) ->
  forall b, isByte b -> P b.
Proof.
  intros H b [H0 H1]. rewrite <- (Z2Nat.id b) by assumption.
  apply H. apply in_seq. lia.
Qed.

Lemma parse_byteToHex (b : Z) :
  isByte b -> toUint8 (parseInt16 (byteToHex b)) = b.
Proof.
  revert b. apply byte_cases.
  assert (H : forallb (fun n => (toUint8 (parseInt16 (byteToHex (Z.of_nat n)))
                                 =? Z.of_nat n)%Z) (seq 0 256) = true)
    by (vm_compute; reflexivity).
  rewrite forallb_forall in H. intros n Hn. now apply Z.eqb_eq, H.
Qed.

Lemma hexPairs_toHex (bytes : Bytes) :
  Forall isByte bytes ->
  hexPairs (String.concat "" (map byteToHex bytes)) = bytes.
Proof.
  induction 1 as [| b bytes Hb _ IH]; [ reflexivity | ].
  cbn [map]. rewrite concat_cons.
  change (byteToHex b ++ String.concat "" (map byteToHex bytes))%string
    with (String (hexDigit (b / 16))
                 (String (hexDigit (b mod 16)) (String.concat "" (map byteToHex bytes)))).
  cbn [hexPairs]. rewrite IH. f_equal. now apply parse_byteToHex.
Qed.

(** X1: reading back the hex form of a byte array gives the array. *)
Theorem X1_hexToBuffer_toHex (bytes : Bytes) :
  Forall isByte bytes -> hexToBuffer (toHex bytes) = bytes.
Proof.
  intros H. unfold hexToBuffer, toHex.
  rewrite prefix_0x. cbn [append String.length Nat.sub substring].
  rewrite Nat.sub_0_r, substring_all. now apply hexPairs_toHex.
Qed.

Lemma X1_hexToBuffer_toHex_witness :
  Forall isByte [0; 171; 5; 255]%Z /\
  hexToBuffer (toHex [0; 171; 5; 255]%Z) = [0; 171; 5; 255]%Z.
Proof.
  assert (H : Forall isByte [0; 171; 5; 255]%Z)
    by (repeat constructor; unfold isByte; lia).
  split; [ exact H | exact (X1_hexToBuffer_toHex [0; 171; 5; 255]%Z H) ].
Defined.

Lemma mod256_byte (n : Z) : isByte (n mod 256).
Proof. unfold isByte. apply Z.mod_pos_bound. lia. Qed.

Lemma toUint8_byte (v : option Z) : isByte (toUint8 v).
Proof. destruct v; simpl; [ apply mod256_byte | unfold isByte; lia ]. Qed.

(** Induction over a string two characters at a time. *)
Lemma string_pair_ind (P : string -> Prop) :
  P EmptyString ->
  (forall a, P (String a EmptyString)) ->
  (forall a b r, P r -> P (String a (String b r))) ->
  forall s, P s.
Proof.
  intros H0 H1 H2 s.
  assert (H : P s /\ forall c, P (String c s)).
  { induction s as [| a s [IHs IHc]]; [ split; auto | ].
    split; [ apply IHc | intros c; now apply H2 ]. }
  apply H.
Qed.

Lemma hexPairs_bounds (hex : string) :
  Forall isByte (hexPairs hex) /\
  List.length (hexPairs hex) = (String.length hex / 2)%nat.
Proof.
  induction hex as [| a | a b r [IHb IHl]] using string_pair_ind.
  - split; [ constructor | reflexivity ].
  - split; [ constructor | reflexivity ].
  - cbn [hexPairs]. split.
    + constructor; [ apply toUint8_byte | exact IHb ].
    + cbn [List.length String.length]. rewrite IHl.
      replace (S (S (String.length r))) with (1 * 2 + String.length r)%nat by lia.
      rewrite Nat.div_add_l by lia. lia.
Qed.

(** What [parseInt] reads in a text of two characters, as stored in the
    array: the value of the hex digits at its front, after one character of
    white space or one sign. *)
Lemma parse_pair (a b : ascii) :
  toUint8 (parseInt16 (String a (String b EmptyString)))
  = if isHexDigit a
    then if isHexDigit b then (16 * hexValue a + hexValue b)%Z else hexValue a
    else if isHexDigit b
         then if isWhiteSpace a || Ascii.eqb a "+" then hexValue b
              else if Ascii.eqb a "-" then ((- hexValue b) mod 256)%Z
              else 0%Z
         else 0%Z.
Proof.
  assert (H : forallb (fun x =>
                forallb (fun y =>
                  (toUint8 (parseInt16 (String x (String y EmptyString)))
                   =? (if isHexDigit x
                       then if isHexDigit y then 16 * hexValue x + hexValue y else hexValue x
                       else if isHexDigit y
                            then if isWhiteSpace x || Ascii.eqb x "+" then hexValue y
                                 else if Ascii.eqb x "-" then (- hexValue y) mod 256
                                 else 0
                            else 0))%Z)
                  allAscii) allAscii = true) by (vm_compute; reflexivity).
  rewrite forallb_forall in H. specialize (H a (allAscii_In a)).
  rewrite forallb_forall in H. specialize (H b (allAscii_In b)).
  now apply Z.eqb_eq.
Qed.

Lemma hexPairs_nth (s : string) (i : nat) (a b : ascii) :
  String.get (2 * i) s = Some a -> String.get (2 * i + 1) s = Some b ->
  nth_error (hexPairs s) i = Some (toUint8 (parseInt16 (String a (String b EmptyString)))).
Proof.
  revert s. induction i as [| i IH]; intros s Ha Hb.
  - destruct s as [| a' [| b' r]]; try discriminate.
    cbn in Ha, Hb. injection Ha as <-. injection Hb as <-. reflexivity.
  - replace (2 * S i)%nat with (S (S (2 * i))) in Ha by lia.
    replace (2 * S i + 1)%nat with (S (S (2 * i + 1))) in Hb by lia.
    destruct s as [| a' [| b' r]]; try discriminate.
    cbn [String.get] in Ha, Hb. cbn [hexPairs nth_error]. now apply IH.
Qed.

(** X2: for every text (of code units below 256), [hexToBuffer] returns
    bytes, one for each full pair of characters that follows the optional
    prefix 0x, a last character without a partner being dropped.  The byte
    of a pair is the value of the hex digits that [parseInt] finds at its
    front: both characters when both are hex digits, the first alone when
    only it is one (1g gives 1, 0x gives 0); the second alone after white
    space or a plus sign; for a digit d after a minus sign, -d modulo 256;
    and 0 for every other pair. *)
Theorem X2_hexToBuffer_bounds (hex : string) :
  let body := if String.prefix "0x" hex
              then substring 2 (String.length hex - 2) hex else hex in
  Forall isByte (hexToBuffer hex) /\
  List.length (hexToBuffer hex)
  = ((String.length hex - (if String.prefix "0x" hex then 2 else 0)) / 2)%nat /\
  forall i a b,
    String.get (2 * i) body = Some a ->
    String.get (2 * i + 1) body = Some b ->
    nth_error (hexToBuffer hex) i
    = Some (if isHexDigit a
            then if isHexDigit b then 16 * hexValue a + hexValue b else hexValue a
            else if isHexDigit b
                 then if isWhiteSpace a || Ascii.eqb a "+" then hexValue b
                      else if Ascii.eqb a "-" then (- hexValue b) mod 256
                      else 0
                 else 0)%Z.
Proof.
  intros body.
  assert (E : hexToBuffer hex = hexPairs body) by reflexivity.
  assert (L : String.length body
              = (String.length hex - (if String.prefix "0x" hex then 2 else 0))%nat).
  { unfold body. destruct (String.prefix "0x" hex) eqn:P; [ | now rewrite Nat.sub_0_r ].
    destruct hex as [| a [| b r]]; try reflexivity.
    cbn [String.length Nat.sub substring]. now rewrite ?Nat.sub_0_r, substring_all. }
  rewrite E, <- L. destruct (hexPairs_bounds body) as [Hb Hl].
  split; [ exact Hb | ]. split; [ exact Hl | ].
  intros i a b Ha Hc. rewrite (hexPairs_nth body i a b Ha Hc). f_equal.
  apply parse_pair.
Qed.

Lemma X2_hexToBuffer_bounds_witness :
  nth_error (hexToBuffer "0x1g-f0x7") 0 = Some 1%Z /\
  nth_error (hexToBuffer "0x1g-f0x7") 1 = Some 241%Z /\
  nth_error (hexToBuffer "0x1g-f0x7") 2 = Some 0%Z /\
  List.length (hexToBuffer "0x1g-f0x7") = 3%nat.
Proof.
  pose proof (X2_hexToBuffer_bounds "0x1g-f0x7") as T.
  cbv zeta in T. destruct T as (_ & L & T).
  split; [ exact (T 0%nat "1"%char "g"%char eq_refl eq_refl) | ].
  split; [ exact (T 1%nat "-"%char "f"%char eq_refl eq_refl) | ].
  split; [ exact (T 2%nat "0"%char "x"%char eq_refl eq_refl) | exact L ].
Defined.

Lemma parse_hex_pair (a b : ascii) :
  isHexDigit a = true -> isHexDigit b = true ->
  byteToHex (toUint8 (parseInt16 (String a (String b EmptyString))))
  = String (lowerChar a) (String (lowerChar b) EmptyString).
Proof.
  assert (H : forallb (fun x =>
                forallb (fun y =>
                  implb (isHexDigit x && isHexDigit y)
                        (String.eqb
                           (byteToHex (toUint8 (parseInt16 (String x (String y EmptyString)))))
                           (String (lowerChar x) (String (lowerChar y) EmptyString))))
                  allAscii) allAscii = true) by (vm_compute; reflexivity).
  rewrite forallb_forall in H. specialize (H a (allAscii_In a)).
  rewrite forallb_forall in H. specialize (H b (allAscii_In b)).
  intros Ha Hb. rewrite Ha, Hb in H. simpl in H. now apply String.eqb_eq.
Qed.

Lemma prefix_cons (a b : ascii) (s1 s2 : string) :
  String.prefix (String a s1) (String b s2)
  = if ascii_dec a b then String.prefix s1 s2 else false.
Proof. reflexivity. Qed.

Lemma toHex_hexPairs (h : string) :
  allChars isHexDigit h = true ->
  Nat.even (String.length h) = true ->
  String.concat "" (map byteToHex (hexPairs h)) = toLowerCase h.
Proof.
  induction h as [| a | a b r IH] using string_pair_ind; intros Hc He.
  - reflexivity.
  - discriminate He.
  - cbn [allChars] in Hc. apply andb_prop in Hc. destruct Hc as [Ha Hc].
    apply andb_prop in Hc. destruct Hc as [Hb Hc].
    cbn [hexPairs map]. rewrite concat_cons, IH by assumption.
    rewrite parse_hex_pair by assumption. reflexivity.
Qed.

(** X3: a text made of an even number of hex digits, in either case and
    with or without the prefix 0x, is read by [hexToBuffer] and written
    back by [toHex] as 0x followed by the same digits in lower case. *)
Theorem X3_toHex_hexToBuffer (h : string) :
  allChars isHexDigit h = true ->
  Nat.even (String.length h) = true ->
  toHex (hexToBuffer h) = ("0x" ++ toLowerCase h)%string /\
  toHex (hexToBuffer ("0x" ++ h)) = ("0x" ++ toLowerCase h)%string.
Proof.
  intros Hc He.
  assert (E1 : hexToBuffer h = hexPairs h).
  { unfold hexToBuffer. destruct h as [| a [| b r]];
      try reflexivity; try discriminate He.
    cbn [allChars] in Hc. apply andb_prop in Hc. destruct Hc as [_ Hc].
    apply andb_prop in Hc. destruct Hc as [Hb _].
    replace (String.prefix "0x" (String a (String b r))) with false; [ reflexivity | ].
    rewrite prefix_cons. destruct (ascii_dec "0" a); [ | reflexivity ].
    rewrite prefix_cons. destruct (ascii_dec "x" b) as [<- | ];
      [ discriminate Hb | reflexivity ]. }
  assert (E2 : hexToBuffer ("0x" ++ h) = hexPairs h).
  { unfold hexToBuffer. rewrite prefix_0x.
    cbn [append String.length Nat.sub substring].
    now rewrite Nat.sub_0_r, substring_all. }
  unfold toHex. rewrite E1, E2, toHex_hexPairs by assumption. auto.
Qed.

Lemma X3_toHex_hexToBuffer_witness :
  toHex (hexToBuffer "0xAB05ff") = "0xab05ff"%string.
Proof.
  exact (proj2 (X3_toHex_hexToBuffer "AB05ff" eq_refl eq_refl)).
Defined.

(** *** The shape of a digest *)

Lemma hexDigit_lower (d : Z) :
  (0 <= d < 16)%Z -> isLowerHexDigit (hexDigit d) = true.
Proof.
  intros [H0 H1].
  assert (H : forallb (fun n => isLowerHexDigit (hexDigit (Z.of_nat n))) (seq 0 16) = true)
    by (vm_compute; reflexivity).
  rewrite forallb_forall in H. rewrite <- (Z2Nat.id d) by assumption.
  apply H. apply in_seq. lia.
Qed.

Lemma allChars_app (f : ascii -> bool) (s t : string) :
  allChars f (s ++ t) = allChars f s && allChars f t.
Proof.
  induction s as [| c s IH]; simpl; [ reflexivity | ].
  now rewrite IH, andb_assoc.
Qed.

Lemma allChars_impl (f g : ascii -> bool) (s : string) :
  (forall c, f c = true -> g c = true) ->
  allChars f s = true -> allChars g s = true.
Proof.
  intros H. induction s as [| c s IH]; simpl; [ reflexivity | ].
  intros E. apply andb_prop in E. destruct E as [E1 E2].
  rewrite (H c E1), (IH E2). reflexivity.
Qed.

Lemma toHex_body_lower (bytes : Bytes) :
  Forall isByte bytes ->
  allChars isLowerHexDigit (String.concat "" (map byteToHex bytes)) = true.
Proof.
  induction 1 as [| b bytes [H0 H1] _ IH]; [ reflexivity | ].
  cbn [map]. rewrite concat_cons, allChars_app, IH, andb_true_r.
  unfold byteToHex. cbn [allChars].
  rewrite !hexDigit_lower; [ reflexivity | | ].
  - apply Z.mod_pos_bound. lia.
  - split; [ apply Z.div_pos; lia | apply Z.div_lt_upper_bound; lia ].
Qed.

Lemma length_append (s t : string) :
  String.length (s ++ t) = (String.length s + String.length t)%nat.
Proof. induction s as [| c s IH]; simpl; [ reflexivity | now rewrite IH ]. Qed.

Lemma toHex_body_length (bytes : Bytes) :
  String.length (String.concat "" (map byteToHex bytes)) = (2 * List.length bytes)%nat.
Proof.
  induction bytes as [| b bytes IH]; [ reflexivity | ].
  cbn [map]. rewrite concat_cons, length_append, IH. simpl. lia.
Qed.

Lemma toLowerCase_fixed (s : string) :
  allChars (fun c => negb (isUpper c)) s = true -> toLowerCase s = s.
Proof.
  induction s as [| c s IH]; simpl; [ reflexivity | ].
  intros E. apply andb_prop in E. destruct E as [E1 E2].
  unfold lowerChar. apply negb_true_iff in E1. rewrite E1, (IH E2). reflexivity.
Qed.

Lemma trimStart_fixed (s : string) :
  allChars noSpace s = true -> trimStart s = s.
Proof.
  destruct s as [| c s]; simpl; [ reflexivity | ].
  intros E. apply andb_prop in E. destruct E as [E1 _].
  unfold noSpace in E1. apply negb_true_iff in E1. now rewrite E1.
Qed.

Lemma trimEnd_fixed (s : string) :
  allChars noSpace s = true -> trimEnd s = s.
Proof.
  induction s as [| c s IH]; simpl; [ reflexivity | ].
  intros E. apply andb_prop in E. destruct E as [E1 E2].
  unfold noSpace in E1. apply negb_true_iff in E1.
  rewrite (IH E2), E1. destruct s; reflexivity.
Qed.

Lemma lowerHex_noSpace (c : ascii) : isLowerHexDigit c = true -> noSpace c = true.
Proof.
  assert (H : forallb (fun x => implb (isLowerHexDigit x) (noSpace x)) allAscii = true)
    by (vm_compute; reflexivity).
  rewrite forallb_forall in H. specialize (H c (allAscii_In c)).
  intros E. now rewrite E in H.
Qed.

Lemma lowerHex_notUpper (c : ascii) :
  isLowerHexDigit c = true -> negb (isUpper c) = true.
Proof.
  assert (H : forallb (fun x => implb (isLowerHexDigit x) (negb (isUpper x))) allAscii = true)
    by (vm_compute; reflexivity).
  rewrite forallb_forall in H. specialize (H c (allAscii_In c)).
  intros E. now rewrite E in H.
Qed.

(** X4: the hex form of a byte array is 0x followed by two lower-case hex
    digits for each byte; it holds no white space and no capital letter, so
    that [trim] and [toLowerCase] leave it as it is. *)
Theorem X4_toHex_shape (bytes : Bytes) :
  Forall isByte bytes ->
  String.length (toHex bytes) = (2 + 2 * List.length bytes)%nat /\
  (exists body, toHex bytes = ("0x" ++ body)%string /\
                allChars isLowerHexDigit body = true) /\
  trim (toHex bytes) = toHex bytes /\
  toLowerCase (toHex bytes) = toHex bytes.
Proof.
  intros H. pose proof (toHex_body_lower bytes H) as L.
  unfold toHex.
  split; [ cbn [append String.length]; now rewrite toHex_body_length | ].
  split; [ eexists; split; [ reflexivity | exact L ] | ].
  assert (N : allChars noSpace ("0x" ++ String.concat "" (map byteToHex bytes)) = true).
  { rewrite allChars_app. apply andb_true_intro. split; [ reflexivity | ].
    revert L. apply allChars_impl. apply lowerHex_noSpace. }
  assert (U : allChars (fun c => negb (isUpper c))
                       ("0x" ++ String.concat "" (map byteToHex bytes)) = true).
  { rewrite allChars_app. apply andb_true_intro. split; [ reflexivity | ].
    revert L. apply allChars_impl. apply lowerHex_notUpper. }
  split.
  - unfold trim. now rewrite trimStart_fixed, trimEnd_fixed.
  - now apply toLowerCase_fixed.
Qed.

Lemma X4_toHex_shape_witness :
  trim (toHex [171; 5]%Z) = toHex [171; 5]%Z.
Proof.
  assert (H : Forall isByte [171; 5]%Z) by (repeat constructor; unfold isByte; lia).
  exact (proj1 (proj2 (proj2 (X4_toHex_shape [171; 5]%Z H)))).
Defined.

(** ** The layout of the board *)

Lemma nth_error_concat_rows (A : Type) (f : nat -> list A) (c : nat) :
  (forall i, List.length (f i) = c) ->
  forall n a idx,
    (idx < n * c)%nat ->
    nth_error (List.concat (map f (seq a n))) idx
    = nth_error (f (a + idx / c)%nat) (idx mod c).
Proof.
  intros Hc. induction n as [| n IH]; intros a idx Hidx; [ lia | ].
  assert (Hpos : (0 < c)%nat) by (destruct c; lia).
  cbn [seq map List.concat].
  destruct (Nat.lt_ge_cases idx c) as [Hlt | Hge].
  - rewrite nth_error_app1 by (now rewrite Hc).
    rewrite Nat.div_small, Nat.mod_small, Nat.add_0_r by assumption. reflexivity.
  - rewrite nth_error_app2 by (now rewrite Hc). rewrite Hc.
    rewrite IH by (simpl in Hidx; lia).
    replace idx with ((idx - c) + 1 * c)%nat at 3 4 by lia.
    rewrite Nat.div_add, Nat.Div0.mod_add by lia.
    f_equal. f_equal. lia.
Qed.

Lemma concat_rows_length (A : Type) (f : nat -> list A) (c : nat) :
  (forall i, List.length (f i) = c) ->
  forall n a, List.length (List.concat (map f (seq a n))) = (n * c)%nat.
Proof.
  intros Hc. induction n as [| n IH]; intros a; [ reflexivity | ].
  cbn [seq map List.concat]. rewrite length_app, Hc, IH. reflexivity.
Qed.

Lemma buildTiles_length (nRows nCols : nat) (rnd : nat -> Q) :
  List.length (buildTiles nRows nCols rnd) = (nRows * nCols)%nat.
Proof.
  unfold buildTiles, boardRows.
  apply (concat_rows_length _ (fun i => rowTiles nCols i (safeIndexOf nCols (rnd i)))).
  intros i. apply rowTiles_length.
Qed.

Lemma buildTiles_nth (nRows nCols : nat) (rnd : nat -> Q) (idx : nat) :
  (idx < nRows * nCols)%nat ->
  nth_error (buildTiles nRows nCols rnd) idx
  = Some (mkTile (idx / nCols)%nat (idx mod nCols)%nat (safeIndexOf nCols (rnd (idx / nCols)%nat))).
Proof.
  intros H. unfold buildTiles, boardRows.
  rewrite (nth_error_concat_rows _ (fun i => rowTiles nCols i (safeIndexOf nCols (rnd i)))
                                 nCols (fun i => rowTiles_length nCols i _) nRows 0 idx H).
  assert (Hpos : (0 < nCols)%nat) by (destruct nCols; lia).
  cbn [Nat.add]. unfold rowTiles.
  rewrite nth_error_map, nth_error_nth' with (d := 0%nat)
    by (rewrite length_seq; now apply Nat.mod_upper_bound; lia).
  rewrite seq_nth by (apply Nat.mod_upper_bound; lia). reflexivity.
Qed.

Lemma sameBoard_length (ts ts0 : list Tile) :
  sameBoard ts ts0 -> List.length ts = List.length ts0.
Proof.
  unfold sameBoard. intros H.
  rewrite <- (length_map eraseColor ts), H. apply length_map.
Qed.

(** The tile at a place of [tiles] in a session, and its depth. *)
Lemma session_tile (ext : Externals) (nRows nCols : nat) (rnd : nat -> Q)
      (es : list Event) (idx : nat) :
  let s := session ext nRows nCols rnd es in
  List.length (tiles s) = (nRows * nCols)%nat /\
  ((idx < nRows * nCols)%nat ->
   exists t, nth_error (tiles s) idx = Some t /\
             position_z t = rowZ (idx / nCols)%nat).
Proof.
  intros s. pose proof (Inv_session ext nRows nCols rnd es) as I. fold s in I.
  pose proof (inv_board _ _ _ _ _ I) as B.
  assert (L : List.length (tiles s) = (nRows * nCols)%nat)
    by (rewrite (sameBoard_length _ _ B); apply buildTiles_length).
  split; [ exact L | ]. intros Hidx.
  destruct (nth_error (tiles s) idx) as [t |] eqn:Hn;
    [ | apply nth_error_None in Hn; lia ].
  destruct (tile_geometry _ _ _ _ idx _ B Hn) as (i & j & _ & _ & Hn0 & Hz & _).
  rewrite (buildTiles_nth nRows nCols rnd idx Hidx) in Hn0.
  pose proof (f_equal (option_map position_z) Hn0) as E.
  cbn [option_map position_z mkTile] in E.
  exists t. split; [ reflexivity | ]. rewrite Hz. congruence.
Qed.

(** X5: throughout a session the array of tiles keeps its layout: it holds
    rows times columns tiles, and the tile at place idx is the tile of row
    idx / columns and column idx mod columns, at the depth of its row and
    the offset of its column, a break tile unless its column is the row's
    entry of the secret path. *)
Theorem X5_board_layout (ext : Externals) (nRows nCols : nat) (rnd : nat -> Q)
        (es : list Event) (idx : nat) :
  let s := session ext nRows nCols rnd es in
  List.length (tiles s) = (nRows * nCols)%nat /\
  ((idx < nRows * nCols)%nat ->
   exists t safe,
     nth_error (tiles s) idx = Some t /\
     nth_error (secretPath s) (idx / nCols)%nat = Some safe /\
     position_z t = rowZ (idx / nCols)%nat /\
     position_x t = nth_error tileOffsets (idx mod nCols)%nat /\
     colIndex t = (idx mod nCols)%nat /\
     break t = negb (Z.of_nat (idx mod nCols) =? safe)%Z).
Proof.
  intros s. pose proof (Inv_session ext nRows nCols rnd es) as I. fold s in I.
  pose proof (inv_board _ _ _ _ _ I) as B.
  assert (L : List.length (tiles s) = (nRows * nCols)%nat)
    by (rewrite (sameBoard_length _ _ B); apply buildTiles_length).
  split; [ exact L | ]. intros Hidx.
  destruct (nth_error (tiles s) idx) as [t |] eqn:Hn;
    [ | apply nth_error_None in Hn; lia ].
  destruct (sameBoard_nth _ _ idx _ B Hn) as (t0 & Hn0 & He).
  rewrite (buildTiles_nth nRows nCols rnd idx Hidx) in Hn0. injection Hn0 as <-.
  unfold eraseColor, setColor in He. injection He as Hx Hz Hc Hb. simpl in *.
  exists t, (safeIndexOf nCols (rnd (idx / nCols)%nat)).
  split; [ reflexivity | ].
  split.
  - rewrite (inv_secret _ _ _ _ _ I). apply buildSecretPath_nth.
    apply Nat.Div0.div_lt_upper_bound. lia.
  - auto.
Qed.

Lemma X5_board_layout_witness :
  exists t safe,
    nth_error (tiles (session extExample numRows numCols rndExample [Click (Some 1%nat)])) 3
    = Some t /\
    nth_error (secretPath (session extExample numRows numCols rndExample [Click (Some 1%nat)]))
              (3 / numCols)%nat = Some safe /\
    position_z t = rowZ (3 / numCols)%nat /\
    position_x t = nth_error tileOffsets (3 mod numCols)%nat /\
    colIndex t = (3 mod numCols)%nat /\
    break t = negb (Z.of_nat (3 mod numCols) =? safe)%Z.
Proof.
  assert (H : (3 < numRows * numCols)%nat) by (unfold numRows, numCols; lia).
  exact (proj2 (X5_board_layout extExample numRows numCols rndExample
                  [Click (Some 1%nat)] 3) H).
Defined.

(** X6: in a session, the tiles a click is accepted on are exactly the tiles
    of one row, the row whose number is the length of the user path, and
    only while the lock is free and the page has not been reloaded. *)
Theorem X6_clickable_row (ext : Externals) (nRows nCols : nat) (rnd : nat -> Q)
        (es : list Event) (idx : nat) :
  let s := session ext nRows nCols rnd es in
  accepted s (Some idx)
  = negb (reloaded (dom s)) && canClick s
    && (idx <? nRows * nCols)%nat
    && (idx / nCols =? List.length (userPath s))%nat.
Proof.
  intros s. pose proof (Inv_session ext nRows nCols rnd es) as I. fold s in I.
  destruct (session_tile ext nRows nCols rnd es idx) as [L Hlay]. fold s in L, Hlay.
  unfold accepted.
  destruct (negb (reloaded (dom s))); [ | reflexivity ].
  destruct (canClick s) eqn:Hc; [ | reflexivity ]. cbn [andb].
  destruct (Nat.ltb_spec idx (nRows * nCols)) as [Hidx | Hidx].
  - destruct (Hlay Hidx) as (t & Hn & Hz). rewrite Hn, Hz. cbn [andb].
    pose proof (inv_cursor _ _ _ _ _ I Hc) as Hcur.
    destruct (Nat.eqb_spec (idx / nCols)%nat (List.length (userPath s))) as [E | E].
    + rewrite E. apply Qle_bool_iff, Qabs_Qle_condition. split; lra.
    + destruct (Qle_bool (Qabs (rowZ (idx / nCols)%nat - currentExpectedZ s)) (1 # 10)) eqn:Q;
        [ | reflexivity ].
      apply Qle_bool_iff in Q. exfalso. apply E. eapply rowZ_close; eassumption.
  - replace (nth_error (tiles s) idx) with (@None Tile); [ reflexivity | ].
    symmetry. apply nth_error_None. lia.
Qed.

(** ** Further invariants of a session *)

Lemma In_removeAt (A : Type) (k : nat) (l : list A) (x : A) :
  In x (removeAt k l) -> In x l.
Proof.
  revert k. induction l as [| a l IH]; intros [| k]; simpl; auto.
  intros [H | H]; eauto.
Qed.

Lemma In_removeAt_other (A : Type) (k : nat) (l : list A) (x t : A) :
  nth_error l k = Some t -> In x l -> x <> t -> In x (removeAt k l).
Proof.
  revert k. induction l as [| a l IH]; intros [| k] Hn Hin Hne; simpl in *;
    try contradiction.
  - injection Hn as ->. destruct Hin as [-> | Hin]; [ contradiction | exact Hin ].
  - destruct Hin as [-> | Hin]; [ now left | right; eauto ].
Qed.

Lemma In_updateAt (A : Type) (f : A -> A) (idx : nat) (l : list A) (x : A) :
  In x (updateAt f idx l) ->
  In x l \/ exists a, nth_error l idx = Some a /\ x = f a.
Proof.
  revert idx. induction l as [| a l IH]; intros [| idx]; simpl; auto.
  - intros [<- | H]; [ right; eauto | auto ].
  - intros [<- | H]; [ auto | ].
    destruct (IH idx H) as [H' | H']; auto.
Qed.

Lemma count_updateAt (A : Type) (P : A -> bool) (f : A -> A) (idx : nat)
      (l : list A) (a : A) :
  nth_error l idx = Some a -> P a = false -> P (f a) = true ->
  List.length (filter P (updateAt f idx l)) = S (List.length (filter P l)).
Proof.
  revert idx. induction l as [| x l IH]; intros [| idx] Hn Ha Hf; simpl in *;
    try discriminate.
  - injection Hn as ->. now rewrite Ha, Hf.
  - specialize (IH idx Hn Ha Hf). destruct (P x); simpl; now rewrite IH.
Qed.

Lemma filter_nil_none (A : Type) (P : A -> bool) (l : list A) :
  List.length (filter P l) = 0%nat -> forall x, In x l -> P x = false.
Proof.
  intros H x Hin. destruct (P x) eqn:E; [ | reflexivity ].
  assert (Hf : In x (filter P l)) by (apply filter_In; auto).
  destruct (filter P l); [ contradiction | discriminate ].
Qed.

(** While nothing of a victory exists, the page is quiet. *)
Lemma tokens_zero (s : State) :
  tokens s = 0%nat ->
  (forall t, In t (pending s) -> isVictoryTask t = false) /\
  proofHashValue (dom s) = None /\ console (dom s) = [].
Proof.
  unfold tokens, uiActive. intros H.
  split; [ apply filter_nil_none; lia | ].
  destruct (proofHashValue (dom s)); [ simpl in H; lia | ].
  destruct (console (dom s)); [ auto | simpl in H; lia ].
Qed.

(** A pending task of the victory is the only one, and the page is quiet. *)
Lemma victory_task_alone (s : State) (k : nat) (t : Task) :
  (tokens s <= 1)%nat ->
  nth_error (pending s) k = Some t -> isVictoryTask t = true ->
  (forall t', In t' (removeAt k (pending s)) -> isVictoryTask t' = false) /\
  proofHashValue (dom s) = None /\ console (dom s) = [].
Proof.
  unfold tokens, uiActive. intros H Hn Hv.
  rewrite (filter_removeAt _ isVictoryTask _ _ _ Hn), Hv in H. simpl in H.
  split; [ apply filter_nil_none; lia | ].
  destruct (proofHashValue (dom s)); [ simpl in H; lia | ].
  destruct (console (dom s)); [ auto | simpl in H; lia ].
Qed.

Lemma chain_idle (ext : Externals) (inputs : NoirInputs) (cs : list Call) (t : Task) :
  isVictoryTask t = false -> chain ext inputs cs t.
Proof. destruct t; simpl; intros H; try discriminate; exact I. Qed.

Lemma accepted_tokens (ext : Externals) (nRows nCols : nat) (rnd : nat -> Q)
      (s : State) (hit : option nat) :
  Inv ext nRows nCols rnd s -> accepted s hit = true -> tokens s = 0%nat.
Proof.
  intros I A. destruct (tokens s) eqn:T; [ reflexivity | ].
  rewrite (done_rejects ext nRows nCols rnd s hit I) in A by lia. discriminate.
Qed.

Lemma Inv2_init (ext : Externals) (nRows nCols : nat) (rnd : nat -> Q) :
  Inv2 ext nRows (init ext nRows nCols rnd).
Proof.
  assert (Hgrey : forall t, In t (buildTiles nRows nCols rnd) -> color t = 0x333333%Z).
  { intros t Ht. apply buildTiles_In in Ht. destruct Ht as (i & j & _ & _ & ->).
    reflexivity. }
  constructor; simpl.
  - unfold gameOver. simpl. split; [ discriminate | intros [[] | H]; discriminate ].
  - split; [ discriminate | intros [] ].
  - reflexivity.
  - intros t Ht. left. now apply Hgrey.
  - intros t Ht Hr. unfold isRevealed in Hr. rewrite (Hgrey t Ht) in Hr. discriminate.
  - induction (buildTiles nRows nCols rnd) as [| t l IH]; [ reflexivity | ].
    simpl. unfold isRevealed at 1. rewrite (Hgrey t) by now left. simpl.
    apply IH. intros t' Ht'. apply Hgrey. now right.
  - intros t Ht Hc. rewrite (Hgrey t Ht) in Hc. discriminate.
  - auto.
  - split; [ discriminate | intros H; now elim H ].
  - intros t [].
  - discriminate.
  - auto.
  - intros e [].
  - intros Hn _ H. lia.
Qed.

Lemma Inv2_click (ext : Externals) (nRows nCols : nat) (rnd : nat -> Q)
      (s : State) (idx : nat) (tile : Tile) :
  Inv ext nRows nCols rnd s -> Inv2 ext nRows s ->
  accepted s (Some idx) = true ->
  nth_error (tiles s) idx = Some tile ->
  Inv2 ext nRows (afterClick nRows idx tile s).
Proof.
  intros I J A Hn.
  destruct (accepted_tile s _ A) as (_ & _ & _ & _ & Hr & Hc & _).
  destruct (accepted_row _ _ _ _ _ _ _ I A Hn) as [Hz Hlen].
  pose proof (accepted_tokens _ _ _ _ _ _ I A) as T0.
  destruct (tokens_zero s T0) as (Hidle & Hnone & Hcons).
  destruct (v_idle _ _ _ J T0) as [Hcalls Htext].
  assert (Hng : ~ gameOver s).
  { intros G. apply (f_lock _ _ _ J) in G. congruence. }
  assert (Hfresh : isRevealed tile = false).
  { destruct (isRevealed tile) eqn:E; [ exfalso | reflexivity ].
    destruct (r_rows _ _ _ J tile (nth_error_In _ _ Hn) E) as (i & Hi & Hlt).
    rewrite Hz in Hi. apply rowZ_inj in Hi. lia. }
  assert (Hsafe : isSafeTile tile = negb (break tile)) by reflexivity.
  constructor; cbn [afterClick tiles symbols userPath canClick pending calls dom noirInputs].
  - (* f_lock *)
    unfold gameOver. cbn [afterClick pending dom]. rewrite Hr.
    destruct (isSafeTile tile) eqn:Hs.
    + split; [ discriminate | ]. intros [H | H]; [ | discriminate ].
      exfalso. apply in_app_or in H. destruct H as [H | H].
      * apply in_app_or in H. destruct H as [H | [H | []]]; [ | discriminate ].
        apply Hng. now left.
      * destruct (Qltb _ _); [ destruct H as [H | []]; discriminate | destruct H ].
    + split; [ | reflexivity ]. intros _. left.
      apply in_or_app. right. now left.
  - apply (f_alert _ _ _ J).
  - rewrite !length_app. simpl. now rewrite (r_symbols _ _ _ J).
  - (* r_color *)
    intros t Ht. apply In_updateAt in Ht.
    destruct Ht as [Ht | (a & Ha & ->)]; [ now apply (r_color _ _ _ J) | ].
    rewrite Hn in Ha. injection Ha as <-. right. unfold isSafeTile.
    destruct (break tile) eqn:Hb; simpl; rewrite ?Hb; auto.
  - (* r_rows *)
    intros t Ht Hrev. rewrite length_app, Nat.add_1_r.
    apply In_updateAt in Ht. destruct Ht as [Ht | (a & Ha & ->)].
    + destruct (r_rows _ _ _ J t Ht Hrev) as (i & Hi & Hlt). exists i. split; [ exact Hi | lia ].
    + rewrite Hn in Ha. injection Ha as <-. eexists. split; [ exact Hz | lia ].
  - (* r_count *)
    rewrite length_app, Nat.add_1_r, <- (r_count _ _ _ J).
    apply count_updateAt with (a := tile); [ exact Hn | exact Hfresh | ].
    unfold isRevealed, isSafeTile. destruct (break tile); reflexivity.
  - (* r_red *)
    intros t Ht Hcol. apply In_updateAt in Ht. destruct Ht as [Ht | (a & Ha & ->)].
    + pose proof (r_red _ _ _ J t Ht Hcol). congruence.
    + rewrite Hn in Ha. injection Ha as <-. unfold isSafeTile in *.
      destruct (break tile); [ reflexivity | discriminate Hcol ].
  - (* v_idle *) intros _. auto.
  - apply (v_text _ _ _ J).
  - (* v_chain *)
    intros t Ht. rewrite Hcalls.
    apply in_app_or in Ht. destruct Ht as [Ht | Ht].
    + apply in_app_or in Ht. destruct Ht as [Ht | [<- | []]]; [ | exact Logic.I ].
      apply chain_idle. now apply Hidle.
    + destruct (isSafeTile tile).
      * destruct (Qltb _ _); [ destruct Ht as [<- | []]; reflexivity | destruct Ht ].
      * destruct Ht as [<- | []]. exact Logic.I.
  - (* v_shown *) intros h Hh. congruence.
  - apply (v_hidden _ _ _ J).
  - (* v_error *) intros e He. rewrite Hcons in He. destruct He.
  - (* p_full *)
    intros Hrows Hs Hfull. rewrite tokens_afterClick, T0, Hs.
    rewrite length_app, Nat.add_1_r in Hfull.
    rewrite Hz, (last_tile_test nRows _ Hfull). simpl. lia.
Qed.

Lemma noirInputs_runTask (ext : Externals) (t : Task) (s : State) :
  noirInputs (runTask ext t s) = noirInputs s.
Proof.
  destruct (runTask_game ext t s) as ((_ & _ & _ & _ & U) & S & H).
  unfold noirInputs. now rewrite U, S, H.
Qed.

(** What a task that does not belong to the victory leaves alone. *)
Lemma runTask_idle (ext : Externals) (t : Task) (s : State) :
  isVictoryTask t = false ->
  pending (runTask ext t s) = pending s /\
  calls (runTask ext t s) = calls s /\
  console (dom (runTask ext t s)) = console (dom s) /\
  victoryText (dom (runTask ext t s)) = victoryText (dom s) /\
  proofHashValue (dom (runTask ext t s)) = proofHashValue (dom s) /\
  copyButtons (dom (runTask ext t s)) = copyButtons (dom s) /\
  verifyListeners (dom (runTask ext t s)) = verifyListeners (dom s).
Proof. destruct t; simpl; intros H; try discriminate; auto 10. Qed.

(** What a task other than the game-over timer leaves alone. *)
Lemma runTask_playing (ext : Externals) (t : Task) (s : State) :
  t <> GameOverTimer ->
  reloaded (dom (runTask ext t s)) = reloaded (dom s) /\
  alerts (dom (runTask ext t s)) = alerts (dom s) /\
  (In GameOverTimer (pending (runTask ext t s)) <-> In GameOverTimer (pending s)).
Proof.
  intros Ht.
  destruct t; try congruence; cbn [runTask];
    try destruct (getCircuit ext);
    try destruct (noir_execute ext program inputs);
    try destruct (generateProof ext program witness);
    try destruct (digest ext proof);
    cbn; (split; [ reflexivity | split; [ reflexivity | ] ]);
    try reflexivity;
    rewrite in_app_iff; cbn; split; intros H; auto;
    destruct H as [H | [H | []]]; auto; discriminate.
Qed.

Lemma pipe_resume (ext : Externals) (nRows nCols : nat) (rnd : nat -> Q)
      (s : State) (k : nat) (t : Task) :
  Inv ext nRows nCols rnd s -> Inv2 ext nRows s ->
  nth_error (pending s) k = Some t ->
  let s' := runTask ext t (set_pending (removeAt k (pending s)) s) in
  (tokens s' = 0%nat -> calls s' = [] /\ victoryText (dom s') = false) /\
  (victoryText (dom s') = true <-> calls s' <> []) /\
  (forall t', In t' (pending s') -> chain ext (noirInputs s') (calls s') t') /\
  (forall h, proofHashValue (dom s') = Some h ->
             shownChain ext (noirInputs s') (calls s') h /\
             copyButtons (dom s') = true /\ verifyListeners (dom s') = [h]) /\
  (proofHashValue (dom s') = None ->
   copyButtons (dom s') = false /\ verifyListeners (dom s') = []) /\
  (forall e, In e (console (dom s')) -> failChain ext (noirInputs s') (calls s') e).
Proof.
  intros I J Hn s'.
  pose proof (tokens_runTask ext s k t Hn (inv_tokens _ _ _ _ _ I)) as T. fold s' in T.
  assert (N : noirInputs s' = noirInputs s).
  { unfold s'. now rewrite noirInputs_runTask. }
  rewrite N, T. clear N T.
  pose proof (v_chain _ _ _ J t (nth_error_In _ _ Hn)) as Hch.
  destruct (isVictoryTask t) eqn:Hv.
  - (* a task of the victory *)
    destruct (victory_task_alone s k t (inv_tokens _ _ _ _ _ I) Hn Hv)
      as (Halone & Hnone & Hcons).
    destruct (v_hidden _ _ _ J Hnone) as [Hcopy Hlist].
    assert (T1 : tokens s <> 0%nat).
    { unfold tokens. rewrite (filter_removeAt _ isVictoryTask _ _ _ Hn), Hv. simpl. lia. }
    assert (Hrest : forall t', In t' (removeAt k (pending s)) ->
                               forall cs, chain ext (noirInputs s) cs t').
    { intros t' Ht' cs. apply chain_idle. now apply Halone. }
    assert (Htxt : calls s <> [] -> victoryText (dom s) = true)
      by apply (v_text _ _ _ J).
    split; [ intros E; contradiction | ].
    subst s'.
    destruct t; try discriminate Hv; cbn [chain] in Hch; cbn [runTask].
    + (* VictoryTimer *)
      cbn. rewrite Hnone, Hcons.
      split; [ apply (v_text _ _ _ J) | ]. rewrite Hch.
      split; [ intros t' Ht'; apply in_app_or in Ht';
               destruct Ht' as [Ht' | [<- | []]]; [ now apply Hrest | reflexivity ] | ].
      split; [ discriminate | ].
      split; [ auto | intros e [] ].
    + (* VictoryTween *)
      cbn. rewrite Hch, Hnone, Hcons. cbn.
      split; [ split; [ discriminate | reflexivity ] | ].
      split; [ intros t' Ht'; apply in_app_or in Ht';
               destruct Ht' as [Ht' | [<- | []]]; [ now apply Hrest | reflexivity ] | ].
      split; [ discriminate | ].
      split; [ auto | intros e [] ].
    + (* AwaitCircuit *)
      assert (Hvt : victoryText (dom s) = true) by (apply Htxt; rewrite Hch; discriminate).
      destruct (getCircuit ext) as [p | e] eqn:Eg; cbn; rewrite Hch, Hnone, Hcons, ?Hvt; cbn.
      * split; [ split; [ discriminate | reflexivity ] | ].
        split; [ intros t' Ht'; apply in_app_or in Ht';
                 destruct Ht' as [Ht' | [<- | []]]; [ now apply Hrest | cbn; auto ] | ].
        split; [ discriminate | ].
        split; [ auto | intros e [] ].
      * split; [ split; [ discriminate | reflexivity ] | ].
        split; [ intros t' Ht'; now apply Hrest | ].
        split; [ discriminate | ].
        split; [ auto | ].
        intros e' [<- | []]. left. auto.
    + (* AwaitExecute *)
      destruct Hch as (Hg & -> & Hcs).
      assert (Hvt : victoryText (dom s) = true) by (apply Htxt; rewrite Hcs; discriminate).
      destruct (noir_execute ext program (noirInputs s)) as [w | e] eqn:Ee;
        cbn; rewrite Hcs, Hnone, Hcons, ?Hvt; cbn.
      * split; [ split; [ discriminate | reflexivity ] | ].
        split; [ intros t' Ht'; apply in_app_or in Ht';
                 destruct Ht' as [Ht' | [<- | []]]; [ now apply Hrest | cbn; auto ] | ].
        split; [ discriminate | ].
        split; [ auto | intros e [] ].
      * split; [ split; [ discriminate | reflexivity ] | ].
        split; [ intros t' Ht'; now apply Hrest | ].
        split; [ discriminate | ].
        split; [ auto | ].
        intros e' [<- | []]. right. left. eauto.
    + (* AwaitProof *)
      destruct Hch as (Hg & He & Hcs).
      assert (Hvt : victoryText (dom s) = true) by (apply Htxt; rewrite Hcs; discriminate).
      destruct (generateProof ext program witness) as [pr | e] eqn:Ep;
        cbn; rewrite Hcs, Hnone, Hcons, ?Hvt; cbn.
      * split; [ split; [ discriminate | reflexivity ] | ].
        split; [ intros t' Ht'; apply in_app_or in Ht';
                 destruct Ht' as [Ht' | [<- | []]];
                 [ now apply Hrest | cbn; unfold fullCalls; eauto 10 ] | ].
        split; [ discriminate | ].
        split; [ auto | intros e [] ].
      * split; [ split; [ discriminate | reflexivity ] | ].
        split; [ intros t' Ht'; now apply Hrest | ].
        split; [ discriminate | ].
        split; [ auto | ].
        intros e' [<- | []]. right. right. left. eauto 10.
    + (* AwaitDigest *)
      destruct Hch as (p & w & Hg & He & Hp & Hcs).
      assert (Hvt : victoryText (dom s) = true) by (apply Htxt; rewrite Hcs; discriminate).
      destruct (digest ext proof) as [d | e] eqn:Ed;
        cbn; rewrite Hcs, ?Hnone, ?Hcons, ?Hvt, ?Hlist; cbn.
      * split; [ split; [ discriminate | reflexivity ] | ].
        split; [ intros t' Ht'; now apply Hrest | ].
        split; [ | split; [ discriminate | intros e [] ] ].
        intros h Hh. injection Hh as <-.
        split; [ unfold shownChain; eauto 12 | auto ].
      * split; [ split; [ discriminate | reflexivity ] | ].
        split; [ intros t' Ht'; now apply Hrest | ].
        split; [ discriminate | ].
        split; [ auto | ].
        intros e' [<- | []]. right. right. right. eauto 12.
  - (* a camera tween or the game-over timer *)
    destruct (runTask_idle ext t (set_pending (removeAt k (pending s)) s) Hv)
      as (Hp & Hc & Hco & Hvt & Hph & Hcb & Hvl).
    fold s' in Hp, Hc, Hco, Hvt, Hph, Hcb, Hvl. cbn in Hp, Hc, Hco, Hvt, Hph, Hcb, Hvl.
    rewrite Hp, Hc, Hco, Hvt, Hph, Hcb, Hvl.
    split; [ apply (v_idle _ _ _ J) | ].
    split; [ apply (v_text _ _ _ J) | ].
    split; [ intros t' Ht'; apply (v_chain _ _ _ J); eapply In_removeAt; eassumption | ].
    split; [ apply (v_shown _ _ _ J) | ].
    split; [ apply (v_hidden _ _ _ J) | apply (v_error _ _ _ J) ].
Qed.

Lemma verifyAll_notice (value : string) (ls : list string) (s : State) :
  let s' := fold_left (fun s proofHash => verifyHandler proofHash value s) ls s in
  victoryText (dom s') = victoryText (dom s) /\
  (In gameOverMsg (alerts (dom s')) <-> In gameOverMsg (alerts (dom s))).
Proof.
  revert s. induction ls as [| h ls IH]; intros s; simpl; [ tauto | ].
  destruct (IH (verifyHandler h value s)) as [IH1 IH2].
  rewrite IH1, IH2. unfold verifyHandler.
  destruct (String.eqb (trim value) ""); cbn; [ | tauto ].
  split; [ reflexivity | ]. rewrite in_app_iff. cbn.
  split; [ intros [H | [H | []]]; [ exact H | discriminate H ] | auto ].
Qed.

Lemma Inv2_resume (ext : Externals) (nRows nCols : nat) (rnd : nat -> Q)
      (s : State) (k : nat) (t : Task) :
  Inv ext nRows nCols rnd s -> Inv2 ext nRows s ->
  reloaded (dom s) = false ->
  nth_error (pending s) k = Some t ->
  Inv2 ext nRows (runTask ext t (set_pending (removeAt k (pending s)) s)).
Proof.
  intros I J Hr Hn.
  set (s0 := set_pending (removeAt k (pending s)) s).
  destruct (runTask_game ext t s0) as ((G1 & G2 & G3 & G4 & G5) & _ & _).
  cbn in G1, G2, G3, G4, G5.
  pose proof (tokens_runTask ext s k t Hn (inv_tokens _ _ _ _ _ I)) as T. fold s0 in T.
  pose proof (pipe_resume ext nRows nCols rnd s k t I J Hn) as P.
  cbv zeta in P. fold s0 in P.
  destruct P as (P1 & P2 & P3 & P4 & P5 & P6).
  assert (Hgo : t = GameOverTimer \/ t <> GameOverTimer)
    by (destruct t; auto; right; discriminate).
  constructor; rewrite ?G1, ?G2, ?G4, ?G5, ?T;
    try (apply J); try assumption.
  - (* f_lock *)
    destruct Hgo as [-> | Hne].
    + unfold gameOver. cbn. split; [ auto | intros _ ].
      apply (f_lock _ _ _ J). left. eapply nth_error_In; eassumption.
    + destruct (runTask_playing ext t s0 Hne) as (Hr' & _ & Hin).
      rewrite (f_lock _ _ _ J). unfold gameOver. rewrite Hr', Hin. cbn.
      split; (intros [H | H]; [ left | now right ]).
      * now apply In_removeAt_other with (t := t); auto.
      * eapply In_removeAt; eassumption.
  - (* f_alert *)
    destruct Hgo as [-> | Hne].
    + cbn. split; [ intros _ | auto ]. apply in_or_app. right. now left.
    + destruct (runTask_playing ext t s0 Hne) as (Hr' & Ha' & _).
      rewrite Hr', Ha'. apply (f_alert _ _ _ J).
  - (* v_idle *) rewrite <- T. exact P1.
Qed.

Lemma Inv2_verify (ext : Externals) (nRows : nat) (s : State) (value : string) :
  Inv2 ext nRows s ->
  Inv2 ext nRows (fold_left (fun s proofHash => verifyHandler proofHash value s)
                            (verifyListeners (dom s)) s).
Proof.
  intros J.
  pose proof (verifyAll_game value (verifyListeners (dom s)) s) as V.
  pose proof (verifyAll_notice value (verifyListeners (dom s)) s) as W.
  pose proof (tokens_verifyAll value s) as T.
  cbv zeta in V, W.
  set (s' := fold_left _ _ _) in *.
  destruct V as ((G1 & G2 & G3 & G4 & G5) & V1 & V2 & V3 & V4 & V5 & V6 & V7 & V8 & V9).
  destruct W as (W1 & W2).
  assert (N : noirInputs s' = noirInputs s)
    by (unfold noirInputs; now rewrite G5, V1, V2).
  constructor; unfold gameOver;
    rewrite ?G1, ?G2, ?G4, ?G5, ?T, ?N, ?V3, ?V4, ?V5, ?V6, ?V7, ?V8, ?V9, ?W1, ?W2;
    apply J.
Qed.

Lemma Inv2_step (ext : Externals) (nRows nCols : nat) (rnd : nat -> Q)
      (s : State) (e : Event) :
  Inv ext nRows nCols rnd s -> Inv2 ext nRows s ->
  Inv2 ext nRows (step ext nRows s e).
Proof.
  intros I J. destruct e as [hit | k | value].
  - destruct (accepted s hit) eqn:A; [ | now rewrite step_rejected ].
    destruct (accepted_tile s hit A) as (idx & tile & -> & Hn & _).
    rewrite (step_accepted ext nRows s idx tile A Hn).
    eapply Inv2_click; eassumption.
  - unfold step. destruct (reloaded (dom s)) eqn:Hr; [ exact J | ].
    destruct (nth_error (pending s) k) as [t |] eqn:Hn; [ | exact J ].
    eapply Inv2_resume; eassumption.
  - unfold step. destruct (reloaded (dom s)); [ exact J | ].
    now apply Inv2_verify.
Qed.

Lemma Inv2_session (ext : Externals) (nRows nCols : nat) (rnd : nat -> Q)
      (es : list Event) :
  Inv2 ext nRows (session ext nRows nCols rnd es).
Proof.
  set (P := fun s => Inv ext nRows nCols rnd s /\ Inv2 ext nRows s).
  assert (H : P (session ext nRows nCols rnd es)).
  { unfold session. apply run_invariant.
    - intros s e [I J]. split; [ now apply Inv_step | now apply Inv2_step with nCols rnd ].
    - split; [ apply Inv_init | apply Inv2_init ]. }
  apply H.
Qed.

(** ** The user path and the secret path *)

Lemma pathAgrees_step (ext : Externals) (nRows : nat) (rnd : nat -> Q)
      (s : State) (e : Event) :
  Inv ext nRows numCols rnd s -> pathAgrees rnd s ->
  pathAgrees rnd (step ext nRows s e).
Proof.
  intros I [Pf Pl].
  destruct (accepted s (match e with Click hit => hit | _ => None end)) eqn:A.
  - destruct e as [hit | k | value];
      try (unfold accepted in A; rewrite andb_false_r in A; discriminate A).
    destruct (accepted_tile s hit A) as (idx & tile & -> & Hn & _ & Hc & _).
    destruct (accepted_row _ _ _ _ _ _ _ I A Hn) as [Hz Hlen].
    destruct (tile_geometry _ _ _ _ idx _ (inv_board _ _ _ _ _ I) Hn)
      as (i & j & Hi & Hj & _ & Hzi & Hcj & Hxj & Hbj).
    assert (i = List.length (userPath s)) by (apply rowZ_inj; congruence). subst i.
    destruct (Pf Hc) as (a & Hu).
    assert (Ha : a = List.length (userPath s))
      by (rewrite Hu; now rewrite buildSecretPath_length).
    rewrite <- Ha in Hbj.
    assert (Hd : directionOf tile = Z.of_nat j)
      by (rewrite <- Hcj; apply directionOf_column; rewrite ?Hcj; assumption).
    rewrite (step_accepted ext nRows s idx tile A Hn).
    unfold pathAgrees. cbn [afterClick canClick userPath]. unfold isSafeTile.
    rewrite Hu, Hd, Hbj, negb_involutive.
    destruct (Z.eqb_spec (Z.of_nat j) (safeIndexOf numCols (rnd a))) as [E | E].
    + split; [ intros _ | discriminate ].
      exists (S a). now rewrite buildSecretPath_S, E.
    + split; [ discriminate | intros _ ]. eauto.
  - assert (G : sameGame s (step ext nRows s e)).
    { apply step_frame. intros hit ->. exact A. }
    destruct G as (_ & _ & _ & G4 & G5). unfold pathAgrees. now rewrite G4, G5.
Qed.

Lemma pathAgrees_session (ext : Externals) (nRows : nat) (rnd : nat -> Q)
      (es : list Event) :
  pathAgrees rnd (session ext nRows numCols rnd es).
Proof.
  set (P := fun s => Inv ext nRows numCols rnd s /\ pathAgrees rnd s).
  assert (H : P (session ext nRows numCols rnd es)).
  { unfold session. apply run_invariant.
    - intros s e [I J]. split; [ now apply Inv_step | now apply pathAgrees_step ].
    - split; [ apply Inv_init | ]. split; [ intros _; now exists 0%nat | discriminate ]. }
  apply H.
Qed.

Lemma firstn_seq_le (a start n : nat) :
  (a <= n)%nat -> firstn a (seq start n) = seq start a.
Proof.
  revert start n. induction a as [| a IH]; intros start [| n] H; simpl;
    try reflexivity; try lia.
  rewrite IH by lia. reflexivity.
Qed.

Lemma firstn_buildSecretPath (a n nCols : nat) (rnd : nat -> Q) :
  (a <= n)%nat ->
  firstn a (buildSecretPath n nCols rnd) = buildSecretPath a nCols rnd.
Proof.
  intros H. unfold buildSecretPath.
  rewrite firstn_map, firstn_seq_le by assumption. reflexivity.
Qed.

(** With the lock free and every row walked, the user path is the secret
    path. *)
Lemma path_complete (ext : Externals) (nRows : nat) (rnd : nat -> Q)
      (es : list Event) :
  let s := session ext nRows numCols rnd es in
  canClick s = true -> List.length (userPath s) = nRows ->
  userPath s = secretPath s.
Proof.
  intros s Hc Hlen.
  pose proof (Inv_session ext nRows numCols rnd es) as I. fold s in I.
  destruct (pathAgrees_session ext nRows rnd es) as [Pf _]. fold s in Pf.
  destruct (Pf Hc) as (a & Hu).
  assert (a = nRows) by (rewrite <- Hlen, Hu; now rewrite buildSecretPath_length).
  subst a. now rewrite (inv_secret _ _ _ _ _ I).
Qed.

(** With the lock held, the user path is not the secret path. *)
Lemma path_locked (ext : Externals) (nRows : nat) (rnd : nat -> Q)
      (es : list Event) :
  let s := session ext nRows numCols rnd es in
  canClick s = false -> userPath s <> secretPath s.
Proof.
  intros s Hc E.
  pose proof (Inv_session ext nRows numCols rnd es) as I. fold s in I.
  destruct (pathAgrees_session ext nRows rnd es) as [_ Pl]. fold s in Pl.
  destruct (Pl Hc) as (a & w & Hu & Hw).
  rewrite (inv_secret _ _ _ _ _ I), Hu in E.
  assert (Hn : nRows = S a).
  { apply (f_equal (@List.length Z)) in E.
    rewrite length_app, !buildSecretPath_length in E. simpl in E. lia. }
  rewrite Hn, buildSecretPath_S in E. apply app_inj_tail in E.
  destruct E as [_ E]. contradiction.
Qed.

(** X10: on the board of the script, in every state of a session: while the
    lock is free the user path is a prefix of the secret path; once the lock
    is held the user path is a prefix of the secret path followed by one
    entry that differs from the secret path at its place. *)
Theorem X10_path_prefix (ext : Externals) (nRows : nat) (rnd : nat -> Q)
        (es : list Event) :
  let s := session ext nRows numCols rnd es in
  let n := List.length (userPath s) in
  (canClick s = true -> userPath s = firstn n (secretPath s)) /\
  (canClick s = false ->
   (1 <= n)%nat /\
   firstn (n - 1) (userPath s) = firstn (n - 1) (secretPath s) /\
   nth_error (userPath s) (n - 1) <> nth_error (secretPath s) (n - 1)).
Proof.
  intros s n. pose proof (Inv_session ext nRows numCols rnd es) as I. fold s in I.
  destruct (pathAgrees_session ext nRows rnd es) as [Pf Pl]. fold s in Pf, Pl.
  pose proof (inv_len _ _ _ _ _ I) as Hlen. fold n in Hlen.
  rewrite (inv_secret _ _ _ _ _ I).
  split.
  - intros Hc. destruct (Pf Hc) as (a & Hu).
    assert (a = n) by (unfold n; rewrite Hu; now rewrite buildSecretPath_length).
    subst a. now rewrite firstn_buildSecretPath.
  - intros Hc. destruct (Pl Hc) as (a & w & Hu & Hw).
    assert (Hn : n = S a)
      by (unfold n; rewrite Hu, length_app, buildSecretPath_length; simpl; lia).
    rewrite Hn in *. cbn [Nat.sub]. rewrite Nat.sub_0_r.
    split; [ lia | ]. split.
    + rewrite firstn_buildSecretPath by lia.
      rewrite Hu, firstn_app, buildSecretPath_length, Nat.sub_diag.
      rewrite firstn_all2 by (rewrite buildSecretPath_length; lia).
      cbn. now rewrite app_nil_r.
    + rewrite Hu, nth_error_app2 by (rewrite buildSecretPath_length; lia).
      rewrite buildSecretPath_length, Nat.sub_diag, buildSecretPath_nth by lia.
      cbn. intros E. injection E as E. contradiction.
Qed.

Lemma X10_path_prefix_witness :
  let s := session extExample numRows numCols rndExample
             [Click (Some 1%nat); Click (Some 3%nat)] in
  nth_error (userPath s) (List.length (userPath s) - 1)
  <> nth_error (secretPath s) (List.length (userPath s) - 1).
Proof.
  intros s.
  assert (Hc : canClick s = false) by (vm_compute; reflexivity).
  exact (proj2 (proj2 (proj2 (X10_path_prefix extExample numRows rndExample
                                [Click (Some 1%nat); Click (Some 3%nat)]) Hc))).
Defined.

(** ** Failure, victory and the life of the pipeline *)

(** X7: in every state of a session the lock is held exactly when the
    game-over notice is scheduled or has been shown, and the page has been
    reloaded exactly when the game-over alert has been raised. *)
Theorem X7_lock_is_game_over (ext : Externals) (nRows nCols : nat) (rnd : nat -> Q)
        (es : list Event) :
  let s := session ext nRows nCols rnd es in
  (canClick s = false <->
   In GameOverTimer (pending s) \/ reloaded (dom s) = true) /\
  (reloaded (dom s) = true <-> In gameOverMsg (alerts (dom s))).
Proof.
  intros s. pose proof (Inv2_session ext nRows nCols rnd es) as J. fold s in J.
  split; [ apply (f_lock _ _ _ J) | apply (f_alert _ _ _ J) ].
Qed.

(** X8: a session that is lost shows nothing of a victory: no task of the
    victory is pending, no external call has been made, the victory text,
    the digest and the console are empty. *)
Theorem X8_failure_excludes_victory (ext : Externals) (nRows nCols : nat)
        (rnd : nat -> Q) (es : list Event) :
  let s := session ext nRows nCols rnd es in
  canClick s = false ->
  (forall t, In t (pending s) -> isVictoryTask t = false) /\
  calls s = [] /\
  victoryText (dom s) = false /\
  proofHashValue (dom s) = None /\
  copyButtons (dom s) = false /\
  verifyListeners (dom s) = [] /\
  console (dom s) = [].
Proof.
  intros s Hc.
  pose proof (Inv_session ext nRows nCols rnd es) as I. fold s in I.
  pose proof (Inv2_session ext nRows nCols rnd es) as J. fold s in J.
  assert (T : tokens s = 0%nat).
  { destruct (tokens s) eqn:E; [ reflexivity | ].
    destruct (inv_done _ _ _ _ _ I) as [Hc' _]; [ lia | congruence ]. }
  destruct (tokens_zero s T) as (Hidle & Hnone & Hcons).
  destruct (v_idle _ _ _ J T) as [Hcalls Htext].
  destruct (v_hidden _ _ _ J Hnone) as [Hcopy Hlist].
  auto 10.
Qed.

Lemma X8_failure_excludes_victory_witness :
  calls (session extExample numRows numCols rndExample lostEvents) = [].
Proof.
  assert (Hc : canClick (session extExample numRows numCols rndExample lostEvents) = false)
    by (vm_compute; reflexivity).
  exact (proj1 (proj2 (X8_failure_excludes_victory extExample numRows numCols rndExample
                         lostEvents Hc))).
Defined.

(** X9: on the board of the script with at least one row, something of the
    victory exists (a task of it is pending, the success UI is on, or its
    error is logged) exactly when the user path equals the secret path. *)
Theorem X9_victory_iff_paths_equal (ext : Externals) (nRows : nat) (rnd : nat -> Q)
        (es : list Event) :
  (1 <= nRows)%nat ->
  let s := session ext nRows numCols rnd es in
  (1 <= tokens s)%nat <-> userPath s = secretPath s.
Proof.
  intros Hrows s.
  pose proof (Inv_session ext nRows numCols rnd es) as I. fold s in I.
  pose proof (Inv2_session ext nRows numCols rnd es) as J. fold s in J.
  split.
  - intros T. destruct (inv_done _ _ _ _ _ I T) as [Hc Hlen].
    now apply path_complete.
  - intros E. destruct (canClick s) eqn:Hc.
    + apply (p_full _ _ _ J Hrows Hc). rewrite E, (inv_secret _ _ _ _ _ I).
      apply buildSecretPath_length.
    + exfalso. now apply (path_locked ext nRows rnd es).
Qed.

Lemma X9_victory_iff_paths_equal_witness :
  (1 <= tokens (session extExample numRows numCols rndExample wonEvents))%nat <->
  userPath (session extExample numRows numCols rndExample wonEvents)
  = secretPath (session extExample numRows numCols rndExample wonEvents).
Proof.
  assert (H : (1 <= numRows)%nat) by (unfold numRows; lia).
  exact (X9_victory_iff_paths_equal extExample numRows rndExample wonEvents H).
Defined.

(** X11: in every state of a session each accepted click has revealed one
    tile and added one symbol: the tiles revealed, the symbols and the
    entries of the user path are equally many.  A tile is grey, or green
    and safe, or red and a break tile; and a red tile means the lock is
    held. *)
Theorem X11_reveal (ext : Externals) (nRows nCols : nat) (rnd : nat -> Q)
        (es : list Event) :
  let s := session ext nRows nCols rnd es in
  List.length (filter isRevealed (tiles s)) = List.length (userPath s) /\
  List.length (symbols s) = List.length (userPath s) /\
  forall t, In t (tiles s) ->
    (color t = 0x333333%Z \/
     (color t = 0x00aa00%Z /\ break t = false) \/
     (color t = 0xff0000%Z /\ break t = true)) /\
    (color t = 0xff0000%Z -> canClick s = false).
Proof.
  intros s. pose proof (Inv2_session ext nRows nCols rnd es) as J. fold s in J.
  split; [ apply (r_count _ _ _ J) | ].
  split; [ apply (r_symbols _ _ _ J) | ].
  intros t Ht. split; [ now apply (r_color _ _ _ J) | now apply (r_red _ _ _ J) ].
Qed.

(** X12: in every state of a session the external calls made so far are the
    first calls of one pipeline, in its order: compilation, witness
    execution with the inputs of the session, proof generation with the
    same program, digest.  No call is made twice or out of turn. *)
Theorem X12_calls_in_order (ext : Externals) (nRows nCols : nat) (rnd : nat -> Q)
        (es : list Event) :
  let s := session ext nRows nCols rnd es in
  exists n p w pr, calls s = firstn n (fullCalls p (noirInputs s) w pr).
Proof.
  intros s.
  pose proof (Inv2_session ext nRows nCols rnd es) as J. fold s in J.
  destruct (filter isVictoryTask (pending s)) as [| t ts] eqn:F.
  - destruct (proofHashValue (dom s)) as [h |] eqn:Hp.
    + destruct (v_shown _ _ _ J h Hp) as ((p & w & pr & d & _ & _ & _ & _ & _ & Hcs) & _).
      exists 4%nat, p, w, pr. now rewrite Hcs.
    + destruct (console (dom s)) as [| e es'] eqn:Hcons.
      * assert (T : tokens s = 0%nat).
        { unfold tokens, uiActive. rewrite F, Hp, Hcons.
          destruct (v_hidden _ _ _ J Hp) as [-> ->]. reflexivity. }
        destruct (v_idle _ _ _ J T) as [-> _].
        exists 0%nat, EmptyString, [], []. reflexivity.
      * assert (He : In e (console (dom s))) by (rewrite Hcons; now left).
        destruct (v_error _ _ _ J e He)
          as [[_ Hcs] | [(p & _ & _ & Hcs) | [(p & w & _ & _ & _ & Hcs)
                                              | (p & w & pr & _ & _ & _ & _ & Hcs)]]];
          rewrite Hcs.
        -- exists 1%nat, EmptyString, [], []. reflexivity.
        -- exists 2%nat, p, [], []. reflexivity.
        -- exists 3%nat, p, w, []. reflexivity.
        -- exists 4%nat, p, w, pr. reflexivity.
  - assert (Ht : In t (filter isVictoryTask (pending s))) by (rewrite F; now left).
    apply filter_In in Ht. destruct Ht as [Ht Hv].
    pose proof (v_chain _ _ _ J t Ht) as Hch.
    destruct t; try discriminate Hv; cbn [chain] in Hch.
    + exists 0%nat, EmptyString, [], []. now rewrite Hch.
    + exists 0%nat, EmptyString, [], []. now rewrite Hch.
    + exists 1%nat, EmptyString, [], []. now rewrite Hch.
    + destruct Hch as (_ & _ & ->). exists 2%nat, program, [], []. reflexivity.
    + destruct Hch as (_ & _ & ->). exists 3%nat, program, witness, []. reflexivity.
    + destruct Hch as (p & w & _ & _ & _ & ->). exists 4%nat, p, w, proof. reflexivity.
Qed.

(** X13: on the board of the script, a digest on display in a session is
    the hex form of the digest of the proof that the prover generated from
    the witness of the compiled circuit for the secret path, the user path
    equal to it, and the commitment, the hash of the secret path; the four
    calls are the whole log, the copy buttons are on and the verify listener
    holds this digest. *)
Theorem X13_digest_provenance (ext : Externals) (nRows : nat) (rnd : nat -> Q)
        (es : list Event) (h : string) :
  let s := session ext nRows numCols rnd es in
  proofHashValue (dom s) = Some h ->
  let inputs := proofInput (secretPath s) (secretPath s)
                           (poseidon2Hash ext (secretPath s)) in
  userPath s = secretPath s /\
  (exists p w pr d,
      getCircuit ext = Ok p /\
      noir_execute ext p inputs = Ok w /\
      generateProof ext p w = Ok pr /\
      digest ext pr = Ok d /\
      h = toHex d /\
      calls s = fullCalls p inputs w pr) /\
  copyButtons (dom s) = true /\
  verifyListeners (dom s) = [h].
Proof.
  intros s Hp inputs.
  pose proof (Inv_session ext nRows numCols rnd es) as I. fold s in I.
  pose proof (Inv2_session ext nRows numCols rnd es) as J. fold s in J.
  destruct (v_shown _ _ _ J h Hp) as (Hch & Hcopy & Hlist).
  assert (T : (1 <= tokens s)%nat).
  { unfold tokens, uiActive. rewrite Hp. simpl. lia. }
  destruct (inv_done _ _ _ _ _ I T) as [Hc Hlen].
  assert (Hu : userPath s = secretPath s) by now apply path_complete.
  assert (N : noirInputs s = inputs).
  { unfold noirInputs, inputs, proofInput.
    rewrite Hu, (inv_hash _ _ _ _ _ I), (inv_secret _ _ _ _ _ I). reflexivity. }
  rewrite N in Hch. auto.
Qed.

Lemma X13_digest_provenance_witness :
  userPath (session extExample numRows numCols rndExample wonEvents)
  = secretPath (session extExample numRows numCols rndExample wonEvents).
Proof.
  assert (Hp : proofHashValue (dom (session extExample numRows numCols rndExample wonEvents))
               = Some "0xab05"%string) by (vm_compute; reflexivity).
  exact (proj1 (X13_digest_provenance extExample numRows rndExample wonEvents
                  "0xab05" Hp)).
Defined.

(** X14: an error on the console of a session is the only entry of the
    console; it was thrown by the external call logged last, all calls
    before it having returned, and with it on the console no digest is
    displayed. *)
Theorem X14_error_provenance (ext : Externals) (nRows nCols : nat) (rnd : nat -> Q)
        (es : list Event) (e : string) :
  let s := session ext nRows nCols rnd es in
  In e (console (dom s)) ->
  console (dom s) = [e] /\
  proofHashValue (dom s) = None /\
  failChain ext (noirInputs s) (calls s) e.
Proof.
  intros s He.
  pose proof (Inv_session ext nRows nCols rnd es) as I. fold s in I.
  pose proof (Inv2_session ext nRows nCols rnd es) as J. fold s in J.
  pose proof (inv_tokens _ _ _ _ _ I) as T. unfold tokens, uiActive in T.
  destruct (console (dom s)) as [| e0 [| e1 l]] eqn:Hcons; [ destruct He | | simpl in T; lia ].
  destruct He as [-> | []].
  split; [ reflexivity | ].
  split.
  - destruct (proofHashValue (dom s)); [ simpl in T; lia | reflexivity ].
  - apply (v_error _ _ _ J). rewrite Hcons. now left.
Qed.

Lemma X14_error_provenance_witness :
  console (dom (session extFailing numRows numCols rndExample failedEvents))
  = ["compile error"%string].
Proof.
  assert (He : In "compile error"%string
                  (console (dom (session extFailing numRows numCols rndExample failedEvents))))
    by (vm_compute; now left).
  exact (proj1 (X14_error_provenance extFailing numRows numCols rndExample failedEvents
                  "compile error" He)).
Defined.

(** ** The pipeline when nothing throws *)

(** X15: on the board of the script, when the walk is completed and none
    of the four external calls throws, then after the victory timer, the
    victory tween and the four awaited calls have been resumed the digest is
    on display: it is the hex form of the digest of the generated proof, the
    copy buttons are on, the verify listener holds it, the log is the four
    calls, and neither an alert nor an error has appeared. *)
Theorem X15_pipeline_completes (ext : Externals) (nRows : nat) (rnd : nat -> Q)
        (steps : list (list Event * nat)) (p : Program) (w : Witness) (pr d : Bytes) :
  (1 <= nRows)%nat ->
  Forall (fun st => Forall isIdle (fst st)) steps ->
  safeWalk nRows numCols rnd (map snd steps) ->
  let s0 := init ext nRows numCols rnd in
  let s1 := run ext nRows s0 (walkEvents steps) in
  let inputs := proofInput (secretPath s0) (secretPath s0) (publicHash s0) in
  let k := (List.length (pending s1) - 1)%nat in
  getCircuit ext = Ok p ->
  noir_execute ext p inputs = Ok w ->
  generateProof ext p w = Ok pr ->
  digest ext pr = Ok d ->
  let s2 := run ext nRows s1 (repeat (Resume k) 6) in
  proofHashValue (dom s2) = Some (toHex d) /\
  copyButtons (dom s2) = true /\
  verifyListeners (dom s2) = [toHex d] /\
  victoryText (dom s2) = true /\
  calls s2 = fullCalls p inputs w pr /\
  console (dom s2) = [] /\
  alerts (dom s2) = [].
Proof.
  intros Hn Hidle F s0 s1 inputs k Hg He Hp Hd.
  pose proof (walked_run ext nRows rnd nRows 0 steps s0
                (walked_init ext nRows rnd) (le_n _) Hidle F) as W.
  fold s1 in W. simpl in W.
  destruct W as (I & Hdom & Hc & Hu & Hcalls & tweens & Htw & Hpend).
  assert (Hr : reloaded (dom s1) = false) by now rewrite Hdom.
  replace ((0 <? nRows)%nat && (nRows =? nRows)%nat) with true in Hpend
    by (symmetry; apply andb_true_iff; split;
        [ apply Nat.ltb_lt; lia | apply Nat.eqb_refl ]).
  assert (Hlen : List.length tweens = k).
  { unfold k. rewrite Hpend, length_app. simpl. lia. }
  assert (N : noirInputs s1 = inputs).
  { unfold noirInputs, inputs, proofInput.
    rewrite Hu, (inv_secret _ _ _ _ _ I), (inv_hash _ _ _ _ _ I). reflexivity. }
  clearbody k. intros s2. subst s2. unfold run. cbn [repeat fold_left].
  rewrite (step_resume_last ext nRows s1 tweens VictoryTimer k Hr Hpend Hlen).
  cbn [runTask].
  set (sa := defer VictoryTween (set_pending tweens s1)).
  rewrite (step_resume_last ext nRows sa tweens VictoryTween k Hr eq_refl Hlen).
  cbn [runTask].
  set (sb := defer AwaitCircuit
                   (logCall CallGetCircuit (showVictoryText (set_pending tweens sa)))).
  rewrite (step_resume_last ext nRows sb tweens AwaitCircuit k Hr eq_refl Hlen).
  cbn [runTask]. rewrite Hg.
  change (noirInputs (set_pending tweens sb)) with (noirInputs s1). rewrite N.
  set (sc := defer (AwaitExecute p inputs)
                   (logCall (CallExecute p inputs) (set_pending tweens sb))).
  rewrite (step_resume_last ext nRows sc tweens (AwaitExecute p inputs) k Hr eq_refl Hlen).
  cbn [runTask]. rewrite He.
  set (sd := defer (AwaitProof p w)
                   (logCall (CallGenerateProof p w) (set_pending tweens sc))).
  rewrite (step_resume_last ext nRows sd tweens (AwaitProof p w) k Hr eq_refl Hlen).
  cbn [runTask]. rewrite Hp.
  set (se := defer (AwaitDigest pr) (logCall (CallDigest pr) (set_pending tweens sd))).
  rewrite (step_resume_last ext nRows se tweens (AwaitDigest pr) k Hr eq_refl Hlen).
  cbn [runTask]. rewrite Hd.
  cbn. rewrite Hcalls, Hdom. cbn. auto 10.
Qed.

Lemma X15_pipeline_completes_witness :
  let s0 := init extExample numRows numCols rndExample in
  let s1 := run extExample numRows s0
                (walkEvents [([], 1); ([Resume 0], 2); ([VerifyClick "0x00"], 5)]%nat) in
  proofHashValue
    (dom (run extExample numRows s1
              (repeat (Resume (List.length (pending s1) - 1)) 6)))
  = Some (toHex [171; 5]%Z).
Proof.
  assert (Hn : (1 <= numRows)%nat) by (unfold numRows; lia).
  assert (Hidle : Forall (fun st : list Event * nat => Forall isIdle (fst st))
                         [([], 1); ([Resume 0], 2); ([VerifyClick "0x00"], 5)]%nat)
    by (repeat constructor).
  assert (F : safeWalk numRows numCols rndExample
                (map snd [([], 1); ([Resume 0], 2); ([VerifyClick "0x00"], 5)]%nat)).
  { repeat constructor; eexists; (split; [ vm_compute; reflexivity | ]);
      split; reflexivity. }
  exact (proj1 (X15_pipeline_completes extExample numRows rndExample _
                  "bytecode"%string [1%Z] [2%Z; 255%Z] [171%Z; 5%Z]
                  Hn Hidle F eq_refl eq_refl eq_refl eq_refl)).
Defined.

(** ** Verifying the digest on display *)

Lemma toHex_noSpace (bytes : Bytes) :
  Forall isByte bytes -> allChars noSpace (toHex bytes) = true.
Proof.
  intros H. unfold toHex. rewrite allChars_app.
  apply andb_true_intro. split; [ reflexivity | ].
  generalize (toHex_body_lower bytes H). apply allChars_impl, lowerHex_noSpace.
Qed.

Lemma sameLetter_noSpace (a b : ascii) :
  sameLetter a b = true -> noSpace b = true -> noSpace a = true.
Proof.
  assert (H : forallb (fun x =>
                forallb (fun y => implb (sameLetter x y && noSpace y) (noSpace x))
                        allAscii) allAscii = true) by (vm_compute; reflexivity).
  rewrite forallb_forall in H. specialize (H a (allAscii_In a)).
  rewrite forallb_forall in H. specialize (H b (allAscii_In b)).
  intros E1 E2. now rewrite E1, E2 in H.
Qed.

Lemma equalUpToCase_noSpace (v s : string) :
  equalUpToCase v s = true -> allChars noSpace s = true -> allChars noSpace v = true.
Proof.
  revert s. induction v as [| a v IH]; intros [| b s]; simpl; try discriminate; auto.
  intros E N. apply andb_prop in E. destruct E as [E1 E2].
  apply andb_prop in N. destruct N as [N1 N2].
  rewrite (sameLetter_noSpace a b E1 N1), (IH s E2 N2). reflexivity.
Qed.

Lemma equalUpToCase_refl (s : string) : equalUpToCase s s = true.
Proof.
  induction s as [| a s IH]; simpl; [ reflexivity | ].
  rewrite IH. unfold sameLetter. now rewrite Ascii.eqb_refl.
Qed.

Lemma trimStart_padded (lead x : string) :
  allChars isWhiteSpace lead = true -> trimStart (lead ++ x) = trimStart x.
Proof.
  induction lead as [| c lead IH]; simpl; [ reflexivity | ].
  intros E. apply andb_prop in E. destruct E as [E1 E2]. now rewrite E1, IH.
Qed.

Lemma trimEnd_space (t : string) :
  allChars isWhiteSpace t = true -> trimEnd t = EmptyString.
Proof.
  induction t as [| c t IH]; simpl; [ reflexivity | ].
  intros E. apply andb_prop in E. destruct E as [E1 E2]. now rewrite IH, E1.
Qed.

Lemma trimEnd_padded (v trail : string) :
  allChars isWhiteSpace trail = true -> trimEnd (v ++ trail) = trimEnd v.
Proof.
  intros E. induction v as [| c v IH]; simpl.
  - now apply trimEnd_space.
  - now rewrite IH.
Qed.

(** Trimming removes the white space around a text that holds none. *)
Lemma trim_padded (lead v trail : string) :
  allChars isWhiteSpace lead = true ->
  allChars isWhiteSpace trail = true ->
  allChars noSpace v = true ->
  trim (lead ++ v ++ trail) = v.
Proof.
  intros El Et Ev. unfold trim. rewrite trimStart_padded by assumption.
  destruct v as [| c v].
  - simpl. rewrite (trimEnd_space (trimStart trail)); [ reflexivity | ].
    clear - Et. induction trail as [| c t IH]; simpl in *; [ reflexivity | ].
    apply andb_prop in Et. destruct Et as [E1 E2]. rewrite E1. now apply IH.
  - assert (Hs : trimStart (String c v ++ trail) = (String c v ++ trail)%string).
    { simpl in *. apply andb_prop in Ev. destruct Ev as [E1 _].
      unfold noSpace in E1. apply negb_true_iff in E1. now rewrite E1. }
    rewrite Hs, trimEnd_padded by assumption. now apply trimEnd_fixed.
Qed.

(** X16: in a session whose digest is on display, the digests being byte
    buffers, pasting the digest as displayed, or in any other letter case,
    with any white space before and after it, is answered "valid". *)
Theorem X16_verify_accepts_display (ext : Externals) (nRows nCols : nat)
        (rnd : nat -> Q) (es : list Event) (shown lead v trail : string) :
  digestBytes ext ->
  let s := session ext nRows nCols rnd es in
  reloaded (dom s) = false ->
  proofHashValue (dom s) = Some shown ->
  allChars isWhiteSpace lead = true ->
  allChars isWhiteSpace trail = true ->
  equalUpToCase v shown = true ->
  verifyResult (dom (step ext nRows s (VerifyClick (lead ++ v ++ trail))))
  = Some validHtml /\
  verifyResult (dom (step ext nRows s (VerifyClick shown))) = Some validHtml.
Proof.
  intros Hbytes s Hr Hp El Et Ev.
  pose proof (Inv2_session ext nRows nCols rnd es) as J. fold s in J.
  destruct (v_shown _ _ _ J shown Hp)
    as ((p & w & pr & d & _ & _ & _ & Hd & Hh & _) & _ & Hlist).
  assert (Hns : allChars noSpace shown = true).
  { rewrite Hh. apply toHex_noSpace. eapply Hbytes; eassumption. }
  assert (Hne : shown <> EmptyString) by (rewrite Hh; discriminate).
  assert (Hvalid : forall value,
             trim value <> EmptyString ->
             equalUpToCase (trim value) shown = true ->
             verifyResult (dom (step ext nRows s (VerifyClick value))) = Some validHtml).
  { intros value Hnz Heq. unfold step. rewrite Hr, Hlist. cbn [fold_left].
    unfold verifyHandler. apply String.eqb_neq in Hnz.
    rewrite Hnz, toLowerCase_equalUpToCase, Heq. reflexivity. }
  split.
  - assert (Hv : allChars noSpace v = true)
      by (eapply equalUpToCase_noSpace; eassumption).
    assert (Ht : trim (lead ++ v ++ trail) = v) by now apply trim_padded.
    apply Hvalid; rewrite Ht; [ | exact Ev ].
    destruct v; [ destruct shown; [ now elim Hne | discriminate Ev ] | discriminate ].
  - assert (Ht : trim shown = shown).
    { unfold trim. now rewrite trimStart_fixed, trimEnd_fixed. }
    apply Hvalid; rewrite Ht; [ exact Hne | apply equalUpToCase_refl ].
Qed.

Lemma X16_verify_accepts_display_witness :
  verifyResult (dom (step extExample numRows
                          (session extExample numRows numCols rndExample wonEvents)
                          (VerifyClick ("  " ++ "0XaB05" ++ " "))))
  = Some validHtml.
Proof.
  assert (Hb : digestBytes extExample).
  { intros proof d E. injection E as <-. repeat constructor; unfold isByte; lia. }
  assert (Hr : reloaded (dom (session extExample numRows numCols rndExample wonEvents)) = false)
    by (vm_compute; reflexivity).
  assert (Hp : proofHashValue (dom (session extExample numRows numCols rndExample wonEvents))
               = Some "0xab05"%string) by (vm_compute; reflexivity).
  exact (proj1 (X16_verify_accepts_display extExample numRows numCols rndExample wonEvents
                  "0xab05" "  " "0XaB05" " " Hb Hr Hp eq_refl eq_refl eq_refl)).
Defined.

(** ** The commitment *)

(** X17: no event of a session changes the secret path or the commitment:
    the secret path stays the one drawn at load time and the commitment
    stays its hash. *)
Theorem X17_commitment_fixed (ext : Externals) (nRows nCols : nat) (rnd : nat -> Q)
        (es : list Event) :
  let s0 := init ext nRows nCols rnd in
  let s := session ext nRows nCols rnd es in
  secretPath s = secretPath s0 /\
  publicHash s = publicHash s0 /\
  publicHash s = poseidon2Hash ext (secretPath s).
Proof.
  intros s0 s. pose proof (Inv_session ext nRows nCols rnd es) as I. fold s in I.
  rewrite (inv_secret _ _ _ _ _ I), (inv_hash _ _ _ _ _ I). auto.
Qed.

(** ** Commitment display *)






(** ** Decorations *)

(** The bulbs of a line with an interval that is not 0: their number and
    where each one stands. *)
Lemma light_line_bulbs (zStart zEnd x interval : Q) :
  ~ (interval == 0)%Q ->
  exists bulbs,
    createLightLine zStart zEnd x interval = Some bulbs /\
    List.length bulbs = Z.to_nat (Qfloor (Qabs (zEnd - zStart) / interval) + 1) /\
    forall i b, nth_error bulbs i = Some b ->
      bulb_x b = x /\ bulb_y b = 7 # 10 /\
      bulb_z b = (zStart - inject_Z (Z.of_nat i) * interval)%Q.
Proof.
  intros Hi. unfold createLightLine.
  replace (Qeq_bool interval 0) with false
    by (symmetry; apply not_true_is_false; intros E; now apply Qeq_bool_eq in E).
  eexists. split; [ reflexivity | ].
  rewrite length_map, length_seq. split; [ reflexivity | ].
  intros i b Hn. rewrite nth_error_map in Hn.
  destruct (nth_error (seq 0 (Z.to_nat (Qfloor (Qabs (zEnd - zStart) / interval) + 1))) i)
    as [j |] eqn:Hj; [ | discriminate ].
  injection Hn as <-. cbn [bulb_x bulb_y bulb_z].
  assert (Hb : (i < List.length
                       (seq 0 (Z.to_nat (Qfloor (Qabs (zEnd - zStart) / interval) + 1))))%nat)
    by (apply nth_error_Some; congruence).
  rewrite length_seq in Hb.
  apply nth_error_nth with (d := 0%nat) in Hj. rewrite seq_nth in Hj by assumption.
  simpl in Hj. subst j. auto.
Qed.

(** The number of steps between two half-integers for a whole interval. *)
Lemma steps_half (zStart zEnd interval : Q) (a e n : Z) :
  (zStart == a # 2)%Q -> (zEnd == e # 2)%Q -> (interval == inject_Z n)%Q ->
  (0 < n)%Z ->
  Qfloor (Qabs (zEnd - zStart) / interval) = (Z.abs (a - e) / (2 * n))%Z.
Proof.
  intros Ha He Hn Hpos.
  assert (Hq : (Qabs (zEnd - zStart) / interval
                == Qmake (Z.abs (a - e)) (Z.to_pos (2 * n)))%Q).
  { rewrite Ha, He, Hn.
    assert (Hd : ((e # 2) - (a # 2) == Qmake (e - a) 2)%Q).
    { unfold Qeq, Qminus, Qplus, Qopp. simpl. lia. }
    rewrite Hd. unfold Qabs. cbn [Qnum Qden].
    replace (Z.abs (e - a)) with (Z.abs (a - e)) by lia.
    unfold Qeq, Qdiv, Qmult, Qinv, inject_Z. destruct n as [| p | p]; try lia.
    cbn [Qnum Qden Z.to_pos Z.mul]. lia. }
  rewrite Hq. unfold Qfloor. rewrite Z2Pos.id by lia. reflexivity.
Qed.

(** X18: for ends that are half-integers and a whole positive interval,
    within 2^30 (on such arguments no operation of the function rounds), a
    light line has one bulb at the start and then one every interval, at
    the given x and at the height 0.7: |zStart - zEnd| / interval of them,
    rounded down, and one.  When the end is not in front of the start, all
    of them lie between the start and the end, and the last one is less
    than an interval away from the end. *)
Theorem X18_light_line (zStart zEnd x interval : Q) (a e n : Z) :
  (zStart == a # 2)%Q -> (zEnd == e # 2)%Q -> (interval == inject_Z n)%Q ->
  (0 < n <= 2 ^ 30)%Z -> (Z.abs a <= 2 ^ 30)%Z -> (Z.abs e <= 2 ^ 30)%Z ->
  exists bulbs,
    createLightLine zStart zEnd x interval = Some bulbs /\
    Z.of_nat (List.length bulbs) = (Z.abs (a - e) / (2 * n) + 1)%Z /\
    (forall i b, nth_error bulbs i = Some b ->
       bulb_x b = x /\ bulb_y b = 7 # 10 /\
       (bulb_z b == Qmake (a - 2 * Z.of_nat i * n) 2)%Q) /\
    ((e <= a)%Z ->
     (forall b, In b bulbs -> (zEnd <= bulb_z b)%Q /\ (bulb_z b <= zStart)%Q) /\
     (forall b, nth_error bulbs (List.length bulbs - 1) = Some b ->
        (bulb_z b < zEnd + interval)%Q)).
Proof.
  intros Ha He Hn [Hpos _] _ _.
  assert (Hi : ~ (interval == 0)%Q).
  { rewrite Hn. unfold Qeq, inject_Z. simpl. lia. }
  destruct (light_line_bulbs zStart zEnd x interval Hi) as (bulbs & Hc & Hl & Hb).
  rewrite (steps_half zStart zEnd interval a e n Ha He Hn Hpos) in Hl.
  assert (Hs : (0 <= Z.abs (a - e) / (2 * n))%Z) by (apply Z.div_pos; lia).
  assert (Hz : forall i b, nth_error bulbs i = Some b ->
                 (bulb_z b == Qmake (a - 2 * Z.of_nat i * n) 2)%Q).
  { intros i b Hi'. destruct (Hb i b Hi') as (_ & _ & ->).
    rewrite Ha, Hn. unfold Qeq, Qminus, Qplus, Qopp, Qmult, inject_Z.
    cbn [Qnum Qden]. lia. }
  exists bulbs. split; [ exact Hc | ].
  split; [ rewrite Hl; lia | ].
  split.
  - intros i b Hi'. destruct (Hb i b Hi') as (Hx & Hy & _).
    split; [ exact Hx | ]. split; [ exact Hy | ]. now apply Hz.
  - intros Hle. rewrite Z.abs_eq in Hl, Hs by lia.
    assert (Hdiv : (2 * n * ((a - e) / (2 * n)) <= a - e
                    /\ a - e < 2 * n * ((a - e) / (2 * n)) + 2 * n)%Z).
    { pose proof (Z.mul_div_le (a - e) (2 * n) ltac:(lia)).
      pose proof (Z.mul_succ_div_gt (a - e) (2 * n) ltac:(lia)). lia. }
    split.
    + intros b Hin. apply In_nth_error in Hin. destruct Hin as [i Hi'].
      assert (Hlt : (i < List.length bulbs)%nat) by (apply nth_error_Some; congruence).
      rewrite (Hz i b Hi'), Ha, He.
      assert (Hin : (2 * Z.of_nat i * n <= a - e)%Z) by nia.
      unfold Qle. cbn [Qnum Qden]. split; nia.
    + intros b Hlast. rewrite (Hz _ b Hlast), He, Hn.
      assert (Ei : Z.of_nat (List.length bulbs - 1) = ((a - e) / (2 * n))%Z) by lia.
      rewrite Ei. unfold Qlt, Qplus, inject_Z. cbn [Qnum Qden]. nia.
Qed.

Lemma X18_light_line_witness :
  exists bulbs,
    createLightLine 2 (gateZ numRows) 2 1 = Some bulbs /\
    Z.of_nat (List.length bulbs) = 12%Z.
Proof.
  assert (Ha : (2 == 4 # 2)%Q) by reflexivity.
  assert (He : (gateZ numRows == (-19) # 2)%Q) by (vm_compute; reflexivity).
  assert (Hn : (1 == inject_Z 1)%Q) by reflexivity.
  assert (B1 : (0 < 1 <= 2 ^ 30)%Z) by (vm_compute; split; [ reflexivity | discriminate ]).
  assert (B2 : (Z.abs 4 <= 2 ^ 30)%Z) by (vm_compute; discriminate).
  assert (B3 : (Z.abs (-19) <= 2 ^ 30)%Z) by (vm_compute; discriminate).
  destruct (X18_light_line 2 (gateZ numRows) 2 1 4 (-19) 1 Ha He Hn B1 B2 B3)
    as (bulbs & E & L & _).
  exists bulbs. split; [ exact E | exact L ].
Defined.
